(** * The process resolver of the runtime security probe

    A shallow embedding of [pkg/security/probe/process_resolver_bpf.go]:
    the userspace entry cache, the [pid_cookie] / [proc_cache] table chain,
    lazy resolution and the startup snapshot.

    The resolver is a Go struct mutated in place.  It is embedded as a record
    threaded through a small state monad.  Go's [panic] is an outcome of its
    own, so that [defer] can be given its real meaning.  Every call that
    leaves the resolver (kernel table, kprobe, /proc, another resolver) is
    appended to a history, which is what the ordering and "no kernel access"
    statements are about.  Debug logging is left out.

    The embedding is sequential and covers the resolver's side only.  The
    programs that run in the kernel and write the same tables (the handlers
    of process events, and the getattr kprobe that fills [inode_numlower]
    while Snapshot stats a binary) are not part of it: a table holds what it
    held when the call under consideration began, plus what the resolver
    wrote since.  The statements below hold whatever [inode_numlower]
    contains. *)

From Stdlib Require Import ZArith List String Strings.Byte Lia.
From stdpp Require Import gmap strings pretty list fin_maps.

Local Open Scope Z_scope.

(** ** Bytes and byte order *)

Abbreviation bytes := (list byte).

#[global] Instance byte_eq_dec : EqDecision byte := Byte.byte_eq_dec.

#[global] Instance byte_countable : Countable byte :=
  inj_countable' Byte.to_N (fun n => default x00 (Byte.of_N n))
    (fun b => f_equal (default x00) (Byte.of_to_N b)).

Definition byte_of_Z (z : Z) : byte :=
  default x00 (Byte.of_N (Z.to_N (z mod 256))).

Definition Z_of_byte (b : byte) : Z := Z.of_N (Byte.to_N b).

(** [encoding/binary]'s two byte orders.  Which one [byteOrder] names is
    decided outside this file (it is the host's), so the resolver is
    parametrised by it. *)
Inductive ByteOrder := LittleEndian | BigEndian.

(** The [n] low-order bytes of [v], least significant first. *)
Fixpoint le_bytes (n : nat) (v : Z) : bytes :=
  match n with
  | O => []
  | S n' => byte_of_Z v :: le_bytes n' (Z.shiftr v 8)
  end.

(** The integer whose little-endian digits are [bs]. *)
Fixpoint le_value (bs : bytes) : Z :=
  match bs with
  | [] => 0
  | b :: bs' => Z.lor (Z_of_byte b) (Z.shiftl (le_value bs') 8)
  end.

Definition PutUint32 (o : ByteOrder) (v : Z) : bytes :=
  match o with
  | LittleEndian => le_bytes 4 v
  | BigEndian => rev (le_bytes 4 v)
  end.

Definition PutUint64 (o : ByteOrder) (v : Z) : bytes :=
  match o with
  | LittleEndian => le_bytes 8 v
  | BigEndian => rev (le_bytes 8 v)
  end.

(** [Uint32] reads the first four bytes of the slice; a shorter slice is an
    index out of range, which is [None] here and a panic at the call site. *)
Definition Uint32 (o : ByteOrder) (b : bytes) : option Z :=
  if decide (length b < 4)%nat then None
  else Some (le_value (match o with
                       | LittleEndian => take 4 b
                       | BigEndian => rev (take 4 b)
                       end)).

(** Go's conversions between fixed-width integers wrap around. *)
Definition uint32 (v : Z) : Z := v mod 2 ^ 32.
Definition int32 (v : Z) : Z :=
  let u := v mod 2 ^ 32 in if decide (u < 2 ^ 31) then u else u - 2 ^ 32.

(** ** Errors *)

(** A Go [error] value: its text, and whether [os.IsNotExist] holds of it. *)
Record error := { err_text : string; err_not_exist : bool }.

Definition errors_New (msg : string) : error :=
  {| err_text := msg; err_not_exist := false |}.

(** [errors.Wrapf] builds a new error around the cause; [os.IsNotExist] does
    not look through that wrapper. *)
Definition errors_Wrapf (e : error) (msg : string) : error :=
  {| err_text := String.append msg (String.append ": " (err_text e));
     err_not_exist := false |}.

Definition os_IsNotExist (e : error) : bool := err_not_exist e.

(** ** Kernel tables *)

(** Modelled from the spec: the kernel-table accessor ([ebpf.Table], "typed
    get/set/delete over fixed-key-width kernel-resident hash tables") is not
    part of the sources.  A table is a finite map from key bytes to value
    bytes.  An insert can be refused by the kernel; which inserts are refused
    is a property of the table ([tbl_rejects], which sees the current
    contents, so that a capacity bound or a width check are instances). *)
Record Table := {
  tbl_data : gmap bytes bytes;
  tbl_rejects : gmap bytes bytes -> bytes -> bytes -> bool
}.

(** Modelled from the spec: [Table.Get] fails exactly on a missing key. *)
Definition tbl_get (t : Table) (k : bytes) : option bytes := tbl_data t !! k.

(** Modelled from the spec: [Table.SetP] writes the pair unless the kernel
    refuses it, and then leaves the table as it was. *)
Definition tbl_set (t : Table) (k v : bytes) : option Table :=
  if tbl_rejects t (tbl_data t) k v then None
  else Some {| tbl_data := <[k := v]> (tbl_data t); tbl_rejects := tbl_rejects t |}.

(** Modelled from the spec: [Table.Delete] removes the key. *)
Definition tbl_delete (t : Table) (k : bytes) : Table :=
  {| tbl_data := delete k (tbl_data t); tbl_rejects := tbl_rejects t |}.

(** Modelled from the spec: the probe's table registry ("register/look-up
    named tables").  The kernel-resident tables of the loaded module are
    [kernel_tables]; a table can be looked up by name once it is registered,
    and registering a table the module does not have fails.  A table handle
    ([*ebpf.Table]) is the name of the table it points to, [None] for nil. *)
Record Probe := {
  kernel_tables : gmap string Table;
  tablesMap : gset string
}.

Abbreviation handle := (option string).

Definition Probe_Table (pr : Probe) (name : string) : handle :=
  if decide (name ∈ tablesMap pr) then Some name else None.

Definition Probe_RegisterTable (pr : Probe) (name : string) : option error * Probe :=
  match kernel_tables pr !! name with
  | Some _ => (None, {| kernel_tables := kernel_tables pr;
                        tablesMap := {[ name ]} ∪ tablesMap pr |})
  | None => (Some (errors_New "couldn't find table"), pr)
  end.

Definition Probe_update (pr : Probe) (name : string) (t : Table) : Probe :=
  {| kernel_tables := <[name := t]> (kernel_tables pr); tablesMap := tablesMap pr |}.

(** ** Data of the resolver *)

Record KProbe := { Name : string; EntryFunc : string }.

(** processSnapshotTables list of tables used to snapshot *)
Definition processSnapshotTables : list string := [ "inode_numlower"%string ].

(** processSnapshotProbes list of hooks used to snapshot *)
Definition processSnapshotProbes : list KProbe :=
  [ {| Name := "getattr"; EntryFunc := "kprobe/vfs_getattr" |} ].

(** One element of [process.AllProcesses()]: the fields the resolver reads. *)
Record Process := { Pid : Z; Exe : string }.

(** What [os.Stat] returns: [fi.Sys()] is a [*syscall.Stat_t] carrying the
    inode, or something else ([None]). *)
Record FileInfo := { Sys_Ino : option Z }.

(** Every call that leaves the resolver, in the order it is made. *)
Inductive Event :=
| EvTableGet (table : string) (key : bytes)
| EvTableSetP (table : string) (key value : bytes) (ok : bool)
| EvTableDelete (table : string) (key : bytes)
| EvRegisterTable (table : string)
| EvRegisterKprobe (kp : string) (ok : bool)
| EvUnregisterKprobe (kp : string) (ok : bool)
| EvAllProcesses
| EvSyncCache (pid : Z)
| EvGetContainerID (pid : Z)
| EvReadlink (path : string)
| EvStat (path : string)
| EvNewCookie
| EvResolveInode
| EvResolveMonotonicTimestamp.

Definition is_table_write (e : Event) : bool :=
  match e with EvTableSetP _ _ _ _ | EvTableDelete _ _ => true | _ => false end.

(** A Go result pair [(value, err)]. *)
Inductive result (A : Type) :=
| Failed (e : error)
| Value (a : A).
Arguments Failed {A} e.
Arguments Value {A} a.

Section Resolver.

(** [W] is the state of everything outside the resolver and the kernel
    tables: /proc, the mount, container, path and time resolvers, the cookie
    generator, the kprobe manager.  [FileEvent] and [Time] are the types of
    the file reference of a cache entry and of a resolved timestamp; they are
    declared elsewhere and only their zero values are used here. *)
Context {W FileEvent Time : Type}.

(** ProcessResolverEntry: the value of the userspace cache. *)
Record ProcessResolverEntry := {
  PathnameStr : string;
  Timestamp : Time
}.

(** Modelled from the spec: ProcCacheEntry, the kernel-table value, is
    declared elsewhere: "containerID: string, inode: 64-bit unsigned,
    overlayNumLower: 32-bit signed, fileEvent: opaque-resolvable-reference,
    timestampRaw: opaque monotonic-timestamp encoding". *)
Record ProcCacheEntry := {
  ContainerEvent_ID : string;
  Inode : Z;
  OverlayNumLower : Z;
  FileEvent_ : FileEvent;
  TimestampRaw : Z
}.

(** What the resolver takes from outside this file: the package-level values
    [byteOrder] and [dentryPathKeyNotFound], the zero values of the two
    foreign types, and the collaborators.  A collaborator reads and updates
    the outside state; the codec of cache entries is pure. *)
Record Environment := {
  byteOrder : ByteOrder;
  dentryPathKeyNotFound : string;
  FileEvent_zero : FileEvent;
  Time_zero : Time;
  process_AllProcesses : W -> result (list Process) * W;
  MountResolver_SyncCache : Z -> W -> option error * W;
  ContainerResolver_GetContainerID : Z -> W -> result string * W;
  utils_ProcExePath : Z -> string;
  os_Readlink : string -> W -> result string * W;
  os_Stat : string -> W -> result FileInfo * W;
  utils_NewCookie : W -> Z * W;
  FileEvent_ResolveInode : FileEvent -> W -> string * W;
  TimeResolver_ResolveMonotonicTimestamp : Z -> W -> Time * W;
  Module_RegisterKprobe : KProbe -> W -> option error * W;
  Module_UnregisterKprobe : KProbe -> W -> option error * W;
  ProcCacheEntry_UnmarshalBinary : bytes -> result ProcCacheEntry;
  ProcCacheEntry_Bytes : ProcCacheEntry -> bytes
}.

Variable X : Environment.

Definition ProcCacheEntry_zero : ProcCacheEntry :=
  {| ContainerEvent_ID := ""; Inode := 0; OverlayNumLower := 0;
     FileEvent_ := FileEvent_zero X; TimestampRaw := 0 |}.

(** ProcessResolver resolved process context.  The entry cache maps a pid to
    a pointer, which may be nil ([None]).  [history] is not a field of the Go
    struct: it records the calls made so far. *)
Record ProcessResolver := {
  probe : Probe;
  resolvers : W;
  inodeNumlowerMap : handle;
  procCacheMap : handle;
  pidCookieMap : handle;
  entryCache : gmap Z (option ProcessResolverEntry);
  history : list Event
}.

Definition set_probe (f : Probe -> Probe) (p : ProcessResolver) : ProcessResolver :=
  {| probe := f (probe p); resolvers := resolvers p;
     inodeNumlowerMap := inodeNumlowerMap p; procCacheMap := procCacheMap p;
     pidCookieMap := pidCookieMap p; entryCache := entryCache p;
     history := history p |}.

Definition set_resolvers (w : W) (p : ProcessResolver) : ProcessResolver :=
  {| probe := probe p; resolvers := w;
     inodeNumlowerMap := inodeNumlowerMap p; procCacheMap := procCacheMap p;
     pidCookieMap := pidCookieMap p; entryCache := entryCache p;
     history := history p |}.

Definition set_inodeNumlowerMap (h : handle) (p : ProcessResolver) : ProcessResolver :=
  {| probe := probe p; resolvers := resolvers p;
     inodeNumlowerMap := h; procCacheMap := procCacheMap p;
     pidCookieMap := pidCookieMap p; entryCache := entryCache p;
     history := history p |}.

Definition set_procCacheMap (h : handle) (p : ProcessResolver) : ProcessResolver :=
  {| probe := probe p; resolvers := resolvers p;
     inodeNumlowerMap := inodeNumlowerMap p; procCacheMap := h;
     pidCookieMap := pidCookieMap p; entryCache := entryCache p;
     history := history p |}.

Definition set_pidCookieMap (h : handle) (p : ProcessResolver) : ProcessResolver :=
  {| probe := probe p; resolvers := resolvers p;
     inodeNumlowerMap := inodeNumlowerMap p; procCacheMap := procCacheMap p;
     pidCookieMap := h; entryCache := entryCache p;
     history := history p |}.

Definition set_entryCache
    (f : gmap Z (option ProcessResolverEntry) -> gmap Z (option ProcessResolverEntry))
    (p : ProcessResolver) : ProcessResolver :=
  {| probe := probe p; resolvers := resolvers p;
     inodeNumlowerMap := inodeNumlowerMap p; procCacheMap := procCacheMap p;
     pidCookieMap := pidCookieMap p; entryCache := f (entryCache p);
     history := history p |}.

Definition record_event (e : Event) (p : ProcessResolver) : ProcessResolver :=
  {| probe := probe p; resolvers := resolvers p;
     inodeNumlowerMap := inodeNumlowerMap p; procCacheMap := procCacheMap p;
     pidCookieMap := pidCookieMap p; entryCache := entryCache p;
     history := history p ++ [e] |}.

(** ** The monad of resolver methods *)

(** A method either returns with the resolver in a new state, or panics (and
    the state reached so far is still what a deferred function sees). *)
Inductive Outcome (A : Type) :=
| Ok (a : A) (p : ProcessResolver)
| Panic (p : ProcessResolver).
Arguments Ok {A} a p.
Arguments Panic {A} p.

Definition M (A : Type) : Type := ProcessResolver -> Outcome A.

#[global] Instance M_ret : MRet M := fun A a p => Ok a p.

#[global] Instance M_bind : MBind M := fun A B k m p =>
  match m p with
  | Ok a p' => k a p'
  | Panic p' => Panic p'
  end.

Definition panic {A : Type} : M A := fun p => Panic p.

Definition read {A : Type} (field : ProcessResolver -> A) : M A :=
  fun p => Ok (field p) p.

Definition modify (f : ProcessResolver -> ProcessResolver) : M unit :=
  fun p => Ok tt (f p).

(** A call to a collaborator: it runs on the outside state and is recorded. *)
Definition call {A : Type} (e : Event) (f : W -> A * W) : M A := fun p =>
  let r := f (resolvers p) in
  Ok (fst r) (record_event e (set_resolvers (snd r) p)).

(** A call whose recorded event tells whether it succeeded. *)
Definition call_checked (e : bool -> Event) (f : W -> option error * W)
    : M (option error) := fun p =>
  let r := f (resolvers p) in
  Ok (fst r) (record_event (e (match fst r with None => true | Some _ => false end))
                           (set_resolvers (snd r) p)).

(** [defer cleanup; body]: the deferred function runs when the body returns
    and also when it panics; the panic then goes on. *)
Definition defer {A : Type} (cleanup : M unit) (body : M A) : M A := fun p =>
  match body p with
  | Ok a p' =>
      match cleanup p' with
      | Ok _ p'' => Ok a p''
      | Panic p'' => Panic p''
      end
  | Panic p' =>
      match cleanup p' with
      | Ok _ p'' => Panic p''
      | Panic p'' => Panic p''
      end
  end.

(** ** Table operations through a handle *)

(** Calling a method of a nil handle is a nil dereference. *)
Definition with_table {A : Type} (field : ProcessResolver -> handle)
    (k : string -> Table -> M A) : M A := fun p =>
  match field p with
  | None => Panic p
  | Some name =>
      match kernel_tables (probe p) !! name with
      | None => Panic p
      | Some t => k name t p
      end
  end.

Definition Table_Get (field : ProcessResolver -> handle) (key : bytes)
    : M (option bytes) :=
  with_table field (fun name t =>
    _ ← modify (record_event (EvTableGet name key));
    mret (tbl_get t key)).

Definition Table_SetP (field : ProcessResolver -> handle) (key value : bytes)
    : M (option error) :=
  with_table field (fun name t =>
    match tbl_set t key value with
    | None =>
        _ ← modify (record_event (EvTableSetP name key value false));
        mret (Some (errors_New "couldn't set key"))
    | Some t' =>
        _ ← modify (set_probe (fun pr => Probe_update pr name t'));
        _ ← modify (record_event (EvTableSetP name key value true));
        mret None
    end).

Definition Table_Delete (field : ProcessResolver -> handle) (key : bytes)
    : M (option error) :=
  with_table field (fun name t =>
    _ ← modify (set_probe (fun pr => Probe_update pr name (tbl_delete t key)));
    _ ← modify (record_event (EvTableDelete name key));
    mret (match tbl_get t key with
          | Some _ => None
          | None => Some (errors_New "couldn't delete key")
          end)).

Definition probe_Table (name : string) : M handle :=
  read (fun p => Probe_Table (probe p) name).

Definition probe_RegisterTable (name : string) : M (option error) := fun p =>
  let r := Probe_RegisterTable (probe p) name in
  Ok (fst r) (record_event (EvRegisterTable name) (set_probe (fun _ => snd r) p)).

(** ** The resolver *)

(** AddEntry add an entry to the local cache *)
Definition AddEntry (pid : Z) (entry : option ProcessResolverEntry) : M unit :=
  modify (set_entryCache (fun c => <[pid := entry]> c)).

(** DelEntry removes an entry from the cache *)
Definition DelEntry (pid : Z) : M unit :=
  _ ← modify (set_entryCache (fun c => delete pid c));
  let pidb := PutUint32 (byteOrder X) pid in
  _ ← Table_Delete pidCookieMap pidb;
  mret tt.

Definition resolve (pid : Z) : M (option ProcessResolverEntry) :=
  let pidb := PutUint32 (byteOrder X) pid in
  r ← Table_Get pidCookieMap pidb;
  match r with
  | None => mret None
  | Some cookieb =>
      r ← Table_Get procCacheMap cookieb;
      match r with
      | None => mret None
      | Some entryb =>
          match ProcCacheEntry_UnmarshalBinary X entryb with
          | Failed _ => mret None
          | Value procCacheEntry =>
              pathnameStr ← call EvResolveInode
                (FileEvent_ResolveInode X (FileEvent_ procCacheEntry));
              if decide (pathnameStr = dentryPathKeyNotFound X) then mret None
              else
                timestamp ← call EvResolveMonotonicTimestamp
                  (TimeResolver_ResolveMonotonicTimestamp X (TimestampRaw procCacheEntry));
                let entry := {| PathnameStr := pathnameStr; Timestamp := timestamp |} in
                _ ← AddEntry pid (Some entry);
                mret (Some entry)
          end
      end
  end.

(** Resolve returns the cache entry for the given pid *)
Definition Resolve (pid : Z) : M (option ProcessResolverEntry) :=
  c ← read entryCache;
  match c !! pid with
  | Some entry => mret entry
  | None =>
      (* fallback request the map directly, the perf event should be delayed *)
      resolve pid
  end.

(** Start starts the resolver *)
Definition Start : M (option error) :=
  h ← probe_Table "proc_cache";
  _ ← modify (set_procCacheMap h);
  match h with
  | None => mret (Some (errors_New "proc_cache BPF_HASH table doesn't exist"))
  | Some _ =>
      h ← probe_Table "pid_cookie";
      _ ← modify (set_pidCookieMap h);
      match h with
      | None => mret (Some (errors_New "pid_cookie BPF_HASH table doesn't exist"))
      | Some _ => mret None
      end
  end.

Definition with_ContainerEvent_ID (id : string) (e : ProcCacheEntry) : ProcCacheEntry :=
  {| ContainerEvent_ID := id; Inode := Inode e; OverlayNumLower := OverlayNumLower e;
     FileEvent_ := FileEvent_ e; TimestampRaw := TimestampRaw e |}.

Definition with_Inode (ino : Z) (e : ProcCacheEntry) : ProcCacheEntry :=
  {| ContainerEvent_ID := ContainerEvent_ID e; Inode := ino;
     OverlayNumLower := OverlayNumLower e;
     FileEvent_ := FileEvent_ e; TimestampRaw := TimestampRaw e |}.

Definition with_OverlayNumLower (n : Z) (e : ProcCacheEntry) : ProcCacheEntry :=
  {| ContainerEvent_ID := ContainerEvent_ID e; Inode := Inode e;
     OverlayNumLower := n;
     FileEvent_ := FileEvent_ e; TimestampRaw := TimestampRaw e |}.

(** snapshotProcess snapshots /proc for the provided pid. This method returns
    true if it updated the kernel process cache. *)
Definition snapshotProcess (pid : Z) : M bool :=
  let entry := ProcCacheEntry_zero in
  (* Check if there already is an entry in the pid <-> cookie cache *)
  let pidb := PutUint32 (byteOrder X) pid in
  r ← Table_Get pidCookieMap pidb;
  match r with
  | Some _ =>
      (* If there is a cookie, there is an entry in cache *)
      mret false
  | None =>
  (* Populate the mount point cache for the process *)
  err ← call (EvSyncCache pid) (MountResolver_SyncCache X pid);
  if match err with Some e => negb (os_IsNotExist e) | None => false end
  then mret false
  else
  (* Retrieve the container ID of the process *)
  r ← call (EvGetContainerID pid) (ContainerResolver_GetContainerID X pid);
  match r with
  | Failed _ => mret false
  | Value containerID =>
  let entry := with_ContainerEvent_ID containerID entry in
  let procExecPath := utils_ProcExePath X pid in
  (* Get process filename and pre-fill the cache *)
  r ← call (EvReadlink procExecPath) (os_Readlink X procExecPath);
  match r with
  | Failed _ => mret false
  | Value pathnameStr =>
  _ ← AddEntry pid (Some {| PathnameStr := pathnameStr; Timestamp := Time_zero X |});
  (* Get the inode of the process binary *)
  r ← call (EvStat procExecPath) (os_Stat X procExecPath);
  match r with
  | Failed _ => mret false
  | Value fi =>
  match Sys_Ino fi with
  | None => mret false
  | Some ino =>
  let entry := with_Inode ino entry in
  (* Fetch the numlower value of the inode *)
  let inodeb := PutUint64 (byteOrder X) ino in
  r ← Table_Get inodeNumlowerMap inodeb;
  match r with
  | None => mret false
  | Some numlowerb =>
  match Uint32 (byteOrder X) numlowerb with
  | None => panic
  | Some n =>
  let entry := with_OverlayNumLower (int32 n) entry in
  (* Generate a new cookie for this pid *)
  cookie ← call EvNewCookie (utils_NewCookie X);
  let cookieb := PutUint32 (byteOrder X) cookie in
  (* Insert the new cache entry and then the cookie *)
  err ← Table_SetP procCacheMap cookieb (ProcCacheEntry_Bytes X entry);
  match err with
  | Some _ => mret false
  | None =>
  err ← Table_SetP pidCookieMap pidb cookieb;
  match err with
  | Some _ => mret false
  | None => mret true
  end end end end end end end end end.

(** The body of [snapshot]'s [for _, proc := range processes], with the
    running value of [cacheModified]. *)
Fixpoint snapshot_range (processes : list Process) (cacheModified : bool) : M bool :=
  match processes with
  | [] => mret cacheModified
  | proc :: rest =>
      (* If Exe is not set, the process is a short lived process and its
         /proc entry has already expired, move on. *)
      if decide (String.length (Exe proc) = 0%nat) then
        snapshot_range rest cacheModified
      else
        inserted ← snapshotProcess (uint32 (Pid proc));
        (* Notify that we modified the cache. *)
        snapshot_range rest (if inserted : bool then true else cacheModified)
  end.

Definition snapshot : M (option error) :=
  r ← call EvAllProcesses (process_AllProcesses X);
  match r with
  | Failed err => mret (Some err)
  | Value processes =>
      cacheModified ← snapshot_range processes false;
      if cacheModified : bool then mret (Some (errors_New "cache modified"))
      else mret None
  end.

(** [for _, t := range processSnapshotTables], returning at the first error. *)
Fixpoint register_tables (ts : list string) : M (option error) :=
  match ts with
  | [] => mret None
  | t :: ts' =>
      err ← probe_RegisterTable t;
      match err with
      | Some e => mret (Some e)
      | None => register_tables ts'
      end
  end.

(** [for _, kp := range processSnapshotProbes], returning at the first error. *)
Fixpoint register_kprobes (kps : list KProbe) : M (option error) :=
  match kps with
  | [] => mret None
  | kp :: kps' =>
      err ← call_checked (EvRegisterKprobe (Name kp)) (Module_RegisterKprobe X kp);
      match err with
      | Some e =>
          mret (Some (errors_Wrapf e (String.append "couldn't register kprobe " (Name kp))))
      | None => register_kprobes kps'
      end
  end.

(** The deferred function: [UnregisterKprobe] is called for every probe; an
    error is logged ([log.Debugf]) and the loop goes on, so the error shows
    in the recorded call only. *)
Fixpoint unregister_kprobes (kps : list KProbe) : M unit :=
  match kps with
  | [] => mret tt
  | kp :: kps' =>
      _ ← call_checked (EvUnregisterKprobe (Name kp)) (Module_UnregisterKprobe X kp);
      unregister_kprobes kps'
  end.

(** [for retry := 0; retry < 5; retry++], with [n] iterations left. *)
Fixpoint Snapshot_retry (n : nat) : M (option error) :=
  match n with
  | O => mret (Some (errors_New "unable to snapshot processes"))
  | S n' =>
      err ← snapshot;
      match err with
      | None => mret None
      | Some _ => Snapshot_retry n'
      end
  end.

(** Snapshot retrieves the process informations *)
Definition Snapshot : M (option error) :=
  (* Register snapshot tables *)
  err ← register_tables processSnapshotTables;
  match err with
  | Some e => mret (Some e)
  | None =>
      (* Select the inode numlower map to prepare for the snapshot *)
      h ← probe_Table "inode_numlower";
      _ ← modify (set_inodeNumlowerMap h);
      match h with
      | None => mret (Some (errors_New "inode_numlower BPF_HASH table doesn't exist"))
      | Some _ =>
          (* Activate the probes required by the snapshot *)
          err ← register_kprobes processSnapshotProbes;
          match err with
          | Some e => mret (Some e)
          | None =>
              (* Deregister probes *)
              defer (unregister_kprobes processSnapshotProbes)
                    (Snapshot_retry 5)
          end
      end
  end.

(** NewProcessResolver returns a new process resolver *)
Definition NewProcessResolver (pr : Probe) (w : W) : ProcessResolver :=
  {| probe := pr; resolvers := w;
     inodeNumlowerMap := None; procCacheMap := None; pidCookieMap := None;
     entryCache := ∅; history := [] |}.

End Resolver.

Arguments Ok {W Time A} a p.
Arguments Panic {W Time A} p.

Section Outcomes.

Context {W Time A : Type}.

(** The state a call ends in, and the value it returned if it did return. *)
Definition final (o : @Outcome W Time A) : ProcessResolver :=
  match o with Ok _ p => p | Panic p => p end.

Definition returned (o : @Outcome W Time A) : option A :=
  match o with Ok a _ => Some a | Panic _ => None end.

(** The calls made between two states of one run. *)
Definition events_since (p p' : @ProcessResolver W Time) : list Event :=
  drop (length (history p)) (history p').

End Outcomes.

(** ** A simulated host

    A small concrete environment: a scripted /proc, a counter for cookies,
    and a fixed-width codec.  It is what the examples below run on. *)
Module Scenario.

Record World := {
  enumerations : list (result (list Process));
  mount_errors : list (Z * error);
  container_ids : list (Z * string);
  exe_links : list (string * string);
  exe_inodes : list (string * FileInfo);
  dentry_paths : list (Z * string);
  next_cookie : Z;
  kprobes_available : bool;
  kprobes_detachable : bool
}.

Fixpoint assoc {K V : Type} `{EqDecision K} (k : K) (l : list (K * V)) : option V :=
  match l with
  | [] => None
  | (k', v) :: l' => if decide (k = k') then Some v else assoc k l'
  end.

Definition ENOENT : error :=
  {| err_text := "no such file or directory"; err_not_exist := true |}.
Definition EACCES : error :=
  {| err_text := "permission denied"; err_not_exist := false |}.

Definition AllProcesses (w : World) : result (list Process) * World :=
  match enumerations w with
  | [] => (Value [], w)
  | r :: rest =>
      (r, {| enumerations := rest; mount_errors := mount_errors w;
             container_ids := container_ids w; exe_links := exe_links w;
             exe_inodes := exe_inodes w; dentry_paths := dentry_paths w;
             next_cookie := next_cookie w;
             kprobes_available := kprobes_available w;
             kprobes_detachable := kprobes_detachable w |})
  end.

Definition SyncCache (pid : Z) (w : World) : option error * World :=
  (assoc pid (mount_errors w), w).

Definition GetContainerID (pid : Z) (w : World) : result string * World :=
  (match assoc pid (container_ids w) with
   | Some id => Value id
   | None => Failed ENOENT
   end, w).

Definition ProcExePath (pid : Z) : string :=
  String.append "/proc/" (String.append (pretty pid) "/exe").

Definition Readlink (path : string) (w : World) : result string * World :=
  (match assoc path (exe_links w) with
   | Some target => Value target
   | None => Failed ENOENT
   end, w).

Definition Stat (path : string) (w : World) : result FileInfo * World :=
  (match assoc path (exe_inodes w) with
   | Some fi => Value fi
   | None => Failed ENOENT
   end, w).

Definition NewCookie (w : World) : Z * World :=
  (next_cookie w,
   {| enumerations := enumerations w; mount_errors := mount_errors w;
      container_ids := container_ids w; exe_links := exe_links w;
      exe_inodes := exe_inodes w; dentry_paths := dentry_paths w;
      next_cookie := next_cookie w + 1;
      kprobes_available := kprobes_available w;
      kprobes_detachable := kprobes_detachable w |}).

Definition not_found : string := "error: dentry path key not found".

(** A file reference is an inode number here. *)
Definition ResolveInode (fe : Z) (w : World) : string * World :=
  (default not_found (assoc fe (dentry_paths w)), w).

Definition boot_time : Z := 1600000000.

Definition ResolveMonotonicTimestamp (raw : Z) (w : World) : Z * World :=
  (boot_time + raw, w).

Definition RegisterKprobe (kp : KProbe) (w : World) : option error * World :=
  (if kprobes_available w then None else Some EACCES, w).

Definition UnregisterKprobe (kp : KProbe) (w : World) : option error * World :=
  (if kprobes_detachable w then None else Some EACCES, w).

(** The codec: inode (8 bytes), overlay depth (4), raw timestamp (8), then
    the container id. *)
Definition Bytes (e : @ProcCacheEntry Z) : bytes :=
  le_bytes 8 (Inode e) ++ le_bytes 4 (OverlayNumLower e)
    ++ le_bytes 8 (TimestampRaw e)
    ++ String.list_byte_of_string (ContainerEvent_ID e).

Definition UnmarshalBinary (b : bytes) : result (@ProcCacheEntry Z) :=
  if decide (length b < 20)%nat then Failed (errors_New "not enough data")
  else Value {| ContainerEvent_ID := String.string_of_list_byte (drop 20 b);
                Inode := le_value (take 8 b);
                OverlayNumLower := int32 (le_value (take 4 (drop 8 b)));
                FileEvent_ := le_value (take 8 b);
                TimestampRaw := le_value (take 8 (drop 12 b)) |}.

Definition env (o : ByteOrder) : @Environment World Z Z :=
  {| byteOrder := o;
     dentryPathKeyNotFound := not_found;
     FileEvent_zero := 0;
     Time_zero := 0;
     process_AllProcesses := AllProcesses;
     MountResolver_SyncCache := SyncCache;
     ContainerResolver_GetContainerID := GetContainerID;
     utils_ProcExePath := ProcExePath;
     os_Readlink := Readlink;
     os_Stat := Stat;
     utils_NewCookie := NewCookie;
     FileEvent_ResolveInode := ResolveInode;
     TimeResolver_ResolveMonotonicTimestamp := ResolveMonotonicTimestamp;
     Module_RegisterKprobe := RegisterKprobe;
     Module_UnregisterKprobe := UnregisterKprobe;
     ProcCacheEntry_UnmarshalBinary := UnmarshalBinary;
     ProcCacheEntry_Bytes := Bytes |}.

(** A hash table that holds at most [n] entries. *)
Definition bounded_table (n : nat) (content : list (bytes * bytes)) : Table :=
  {| tbl_data := list_to_map content;
     tbl_rejects := fun m k _ => bool_decide (m !! k = None ∧ (n <= size m)%nat) |}.

(** The host: pids 10 and 11 run /bin/a and /bin/b; pid 12 has an exe link
    whose target cannot be stat'ed; the mount resolver fails on 13 with a
    permission error and on 14 with "no such process"; 15 has no container
    record; 16 has no exe link; the binary of 17 is on an inode the kernel
    has no overlay depth for. *)
Definition host (passes : list (result (list Process))) (kprobes : bool) : World :=
  {| enumerations := passes;
     mount_errors := [(13, EACCES); (14, ENOENT)];
     container_ids := [(10, ""); (11, "c0ffee"); (12, ""); (13, ""); (14, "");
                       (16, ""); (17, ""); (18, ""); (19, ""); (20, "")]%string;
     exe_links := [(ProcExePath 10, "/bin/a"); (ProcExePath 11, "/bin/b");
                   (ProcExePath 12, "/bin/c"); (ProcExePath 14, "/bin/a");
                   (ProcExePath 15, "/bin/a"); (ProcExePath 17, "/bin/e");
                   (ProcExePath 18, "/bin/a"); (ProcExePath 19, "/bin/a");
                   (ProcExePath 20, "/bin/a")]%string;
     exe_inodes := [(ProcExePath 10, {| Sys_Ino := Some 100 |});
                    (ProcExePath 11, {| Sys_Ino := Some 101 |});
                    (ProcExePath 14, {| Sys_Ino := Some 100 |});
                    (ProcExePath 17, {| Sys_Ino := Some 107 |});
                    (ProcExePath 18, {| Sys_Ino := Some 100 |});
                    (ProcExePath 19, {| Sys_Ino := Some 100 |});
                    (ProcExePath 20, {| Sys_Ino := Some 100 |})];
     dentry_paths := [(100, "/bin/a"); (101, "/bin/b")]%string;
     next_cookie := 7000;
     kprobes_available := kprobes;
     kprobes_detachable := true |}.

(** The same host, on which a kprobe that is attached cannot be detached. *)
Definition undetachable (w : World) : World :=
  {| enumerations := enumerations w; mount_errors := mount_errors w;
     container_ids := container_ids w; exe_links := exe_links w;
     exe_inodes := exe_inodes w; dentry_paths := dentry_paths w;
     next_cookie := next_cookie w;
     kprobes_available := kprobes_available w;
     kprobes_detachable := false |}.

(** The loaded module: [proc_cache] and [pid_cookie] with the given pairs,
    and an [inode_numlower] that already knows the two binaries. *)
Definition module (o : ByteOrder) (capacity : nat)
    (entries pointers : list (bytes * bytes)) : Probe :=
  {| kernel_tables :=
       list_to_map
         [("proc_cache"%string, bounded_table capacity entries);
          ("pid_cookie"%string, bounded_table capacity pointers);
          ("inode_numlower"%string,
           bounded_table 16 [(PutUint64 o 100, PutUint32 o 0);
                             (PutUint64 o 101, PutUint32 o 2)])];
     tablesMap := {[ "proc_cache"%string; "pid_cookie"%string ]} |}.

Definition all_live : list Process :=
  [ {| Pid := 10; Exe := "/bin/a" |}; {| Pid := 9; Exe := "" |};
    {| Pid := 11; Exe := "/bin/b" |} ].

Definition E : @Environment World Z Z := env LittleEndian.

(** The resolver once [Start] has run, on empty tables. *)
Definition booted (passes : list (result (list Process))) (kprobes : bool)
    : @ProcessResolver World Z :=
  final (Start (NewProcessResolver (module LittleEndian 8 [] []) (host passes kprobes))).

(** The resolver in the middle of [Snapshot]: the loop is about to run. *)
Definition snapshotting (passes : list (result (list Process)))
    : @ProcessResolver World Z :=
  set_inodeNumlowerMap (Some "inode_numlower"%string) (booted passes true).

(** Pid 10 has been inserted. *)
Definition inserted10 : @ProcessResolver World Z :=
  final (snapshotProcess E 10 (snapshotting [])).

(** Pids 10 and 11 have been inserted. *)
Definition inserted_both : @ProcessResolver World Z :=
  final (snapshotProcess E 11 inserted10).

(** A resolver just made by [NewProcessResolver]. *)
Definition fresh : @ProcessResolver World Z :=
  NewProcessResolver (module LittleEndian 8 [] []) (host [] true).

(** The kernel tables know pid 10, the userspace cache does not. *)
Definition cold10 : @ProcessResolver World Z :=
  set_entryCache (fun _ => ∅) inserted10.

(** Pid 10 is in the userspace cache. *)
Definition warm10 : @ProcessResolver World Z :=
  final (Resolve E 10 cold10).

(** Tables that went stale: the pointer of pid 21 leads to no entry, the
    entry of pid 22 cannot be decoded, and the entry of pid 23 refers to an
    inode the path resolver does not know. *)
Definition stale : @ProcessResolver World Z :=
  final (Start (NewProcessResolver
    (module LittleEndian 8
       [(PutUint32 LittleEndian 2, [x00]);
        (PutUint32 LittleEndian 3,
         Bytes {| ContainerEvent_ID := ""; Inode := 107; OverlayNumLower := 0;
                  FileEvent_ := 107; TimestampRaw := 5 |})]
       [(PutUint32 LittleEndian 21, PutUint32 LittleEndian 1);
        (PutUint32 LittleEndian 22, PutUint32 LittleEndian 2);
        (PutUint32 LittleEndian 23, PutUint32 LittleEndian 3)])
    (host [] true))).


(** A process set that keeps growing: every enumeration shows one more
    process than the one before. *)
Definition growing_passes : list (result (list Process)) :=
  let procs := [ {| Pid := 10; Exe := "/bin/a" |}; {| Pid := 11; Exe := "/bin/b" |};
                 {| Pid := 18; Exe := "/bin/a" |}; {| Pid := 19; Exe := "/bin/a" |};
                 {| Pid := 20; Exe := "/bin/a" |}; {| Pid := 14; Exe := "/bin/a" |} ] in
  [ Value (take 1 procs); Value (take 2 procs); Value (take 3 procs);
    Value (take 4 procs); Value (take 5 procs); Value (take 6 procs) ].


(** The resolver once [Start] has run, on a host where the process set
    settles and the kprobe cannot be detached. *)
Definition stuck : @ProcessResolver World Z :=
  final (Start (NewProcessResolver (module LittleEndian 8 [] [])
                  (undetachable (host [Value all_live; Value all_live] true)))).



End Scenario.

(** ** Vocabulary of the properties *)

(** The kernel-table writes among recorded calls. *)
Definition table_writes (l : list Event) : list Event :=
  List.filter is_table_write l.



(** The keys of the pointers that the kernel accepted, oldest first. *)
Definition inserted_keys (l : list Event) : list bytes :=
  flat_map (fun e =>
    match e with
    | EvTableSetP t k _ true => if String.eqb t "pid_cookie" then [k] else []
    | _ => []
    end) l.

Definition is_enumeration (e : Event) : bool :=
  match e with EvAllProcesses => true | _ => false end.

(** One pass makes one call to [process.AllProcesses]. *)
Definition attempts (l : list Event) : nat :=
  length (List.filter is_enumeration l).

(** The calls a per-process insertion can make. *)
Definition is_process_event (e : Event) : bool :=
  match e with
  | EvTableGet _ _ | EvTableSetP _ _ _ _ | EvSyncCache _ | EvGetContainerID _
  | EvReadlink _ | EvStat _ | EvNewCookie => true
  | _ => false
  end.

Definition is_kprobe_event (e : Event) : bool :=
  match e with
  | EvRegisterKprobe _ _ | EvUnregisterKprobe _ _ => true
  | _ => false
  end.

(** A registration of a kprobe that succeeded, a call to unregister one,
    and such a call that succeeded. *)
Definition is_activation (e : Event) : bool :=
  match e with EvRegisterKprobe _ true => true | _ => false end.

Definition is_unregistration (e : Event) : bool :=
  match e with EvUnregisterKprobe _ _ => true | _ => false end.

Definition is_deactivation (e : Event) : bool :=
  match e with EvUnregisterKprobe _ true => true | _ => false end.

Definition unregistrations (l : list Event) : nat :=
  length (List.filter is_unregistration l).

(** The calls of the retry loop: enumerations and per-process calls. *)
Definition is_pass_event (e : Event) : bool :=
  is_process_event e || is_enumeration e.

(** Whether the kprobe [name] is active after the recorded calls, given
    whether it was before: a registration that succeeded activates it, an
    unregistration that succeeded deactivates it, and a call that returned
    an error leaves it as it was. *)
Definition active_after (name : string) (l : list Event) (before : bool) : bool :=
  fold_left (fun a e =>
    match e with
    | EvRegisterKprobe n true => if decide (n = name) then true else a
    | EvUnregisterKprobe n true => if decide (n = name) then false else a
    | _ => a
    end) l before.

Section Properties.

Context {W FileEvent Time : Type}.
Variable X : @Environment W FileEvent Time.

Implicit Types (p : @ProcessResolver W Time) (pid : Z).

(** The contents of a kernel table, by name. *)
Definition table_data p (name : string) : gmap bytes bytes :=
  match kernel_tables (probe p) !! name with
  | Some t => tbl_data t
  | None => ∅
  end.

Definition pid_cookie p : gmap bytes bytes := table_data p "pid_cookie".
Definition proc_cache p : gmap bytes bytes := table_data p "proc_cache".

(** The key of a pid in [pid_cookie]. *)
Definition pid_key pid : bytes := PutUint32 (byteOrder X) pid.

(** A handle points to the kernel table of that name. *)
Definition bound (h : handle) (name : string) p : bool :=
  bool_decide (h = Some name)
  && bool_decide (is_Some (kernel_tables (probe p) !! name)).

(** The state [Start] leaves the resolver in when it succeeds. *)
Definition started p : bool :=
  bound (procCacheMap p) "proc_cache" p && bound (pidCookieMap p) "pid_cookie" p.

(** Every pointer of [pid_cookie] leads to an entry of [proc_cache]. *)
Definition no_dangling p : bool :=
  bool_decide (map_Forall (fun _ c => is_Some (proc_cache p !! c)) (pid_cookie p)).

(** [pointers_grow p p' delta]: between [p] and [p'] the calls [delta]
    were recorded, and the table chain only grew: the accepted pointer
    inserts are for distinct pids that had no pointer, they are exactly what
    [pid_cookie] gained, no pointer changed, [proc_cache] lost no key, and
    no dangling cookie appeared. *)
Definition pointers_grow p p' (delta : list Event) : Prop :=
  history p' = history p ++ delta /\
  NoDup (inserted_keys delta) /\
  (forall k, k ∈ inserted_keys delta -> pid_cookie p !! k = None) /\
  dom (pid_cookie p') = dom (pid_cookie p) ∪ list_to_set (inserted_keys delta) /\
  pid_cookie p ⊆ pid_cookie p' /\
  dom (proc_cache p) ⊆ dom (proc_cache p') /\
  (no_dangling p = true -> no_dangling p' = true).

(** The mount sync ended with an error other than "no such process". *)
Definition sync_aborts (err : option error) : bool :=
  match err with Some e => negb (os_IsNotExist e) | None => false end.

Definition is_failed {A : Type} (r : result A) : bool :=
  match r with Failed _ => true | Value _ => false end.

(** The entry that snapshotProcess puts in the cache once the exe link is read. *)
Definition provisional (path : string) : option ProcessResolverEntry :=
  Some {| PathnameStr := path; Timestamp := Time_zero X |}.

(** The same environment with a mount resolver whose sync never reports an
    error (and changes the outside state as the given one does). *)
Definition sync_succeeds : @Environment W FileEvent Time :=
  {| byteOrder := byteOrder X;
     dentryPathKeyNotFound := dentryPathKeyNotFound X;
     FileEvent_zero := FileEvent_zero X;
     Time_zero := Time_zero X;
     process_AllProcesses := process_AllProcesses X;
     MountResolver_SyncCache := fun pid w => (None, (MountResolver_SyncCache X pid w).2);
     ContainerResolver_GetContainerID := ContainerResolver_GetContainerID X;
     utils_ProcExePath := utils_ProcExePath X;
     os_Readlink := os_Readlink X;
     os_Stat := os_Stat X;
     utils_NewCookie := utils_NewCookie X;
     FileEvent_ResolveInode := FileEvent_ResolveInode X;
     TimeResolver_ResolveMonotonicTimestamp := TimeResolver_ResolveMonotonicTimestamp X;
     Module_RegisterKprobe := Module_RegisterKprobe X;
     Module_UnregisterKprobe := Module_UnregisterKprobe X;
     ProcCacheEntry_UnmarshalBinary := ProcCacheEntry_UnmarshalBinary X;
     ProcCacheEntry_Bytes := ProcCacheEntry_Bytes X |}.

(** The processes of an enumeration that a pass does not skip, by pid. *)
Definition has_exe (proc : Process) : bool := negb (String.eqb (Exe proc) "").

Definition live_pids (processes : list Process) : list Z :=
  map (fun proc => uint32 (Pid proc)) (List.filter has_exe processes).

(** A pass as the specification words it: the per-process insertion is
    attempted for each of the given pids, in order, and the result tells
    whether one of them inserted (or [modified] already held). *)
Fixpoint insert_each (pids : list Z) (modified : bool) : M bool :=
  match pids with
  | [] => mret modified
  | pid :: rest =>
      inserted ← snapshotProcess X pid;
      insert_each rest (if inserted : bool then true else modified)
  end.


(** [wp m Q p]: running [m] from [p] ends in an outcome that satisfies [Q]. *)
Definition wp {A : Type} (m : @M W Time A) (Q : Outcome A -> Prop) p : Prop :=
  Q (m p).

(** *** Symbolic execution *)

Lemma wp_ret {A : Type} (a : A) Q p : Q (Ok a p) -> wp (mret a) Q p.
Proof. done. Qed.

Lemma wp_panic {A : Type} (Q : @Outcome W Time A -> Prop) p :
  Q (Panic p) -> wp panic Q p.
Proof. done. Qed.

Lemma wp_bind {A B : Type} (m : M A) (k : A -> M B) Q p :
  wp m (fun o => match o with
                 | Ok a p' => wp (k a) Q p'
                 | Panic p' => Q (Panic p')
                 end) p ->
  wp (m ≫= k) Q p.
Proof. unfold wp, mbind, M_bind. by destruct (m p). Qed.

Lemma wp_call {A B : Type} e (f : W -> A * W) (k : A -> M B) Q p :
  wp (k (f (resolvers p)).1) Q (record_event e (set_resolvers (f (resolvers p)).2 p)) ->
  wp (call e f ≫= k) Q p.
Proof. done. Qed.

Lemma wp_modify {B : Type} f (k : unit -> M B) Q p :
  wp (k tt) Q (f p) -> wp (modify f ≫= k) Q p.
Proof. done. Qed.

Lemma wp_read {A B : Type} (f : ProcessResolver -> A) (k : A -> M B) Q p :
  wp (k (f p)) Q p -> wp (read f ≫= k) Q p.
Proof. done. Qed.

Lemma wp_Table_Get {B : Type} field key (k : option bytes -> M B) Q p :
  match field p with
  | Some name =>
      match kernel_tables (probe p) !! name with
      | Some t => wp (k (tbl_data t !! key)) Q (record_event (EvTableGet name key) p)
      | None => Q (Panic p)
      end
  | None => Q (Panic p)
  end ->
  wp (Table_Get field key ≫= k) Q p.
Proof.
  unfold wp, Table_Get, with_table, mbind, M_bind.
  destruct (field p) as [name|]; [|done].
  by destruct (kernel_tables (probe p) !! name).
Qed.

Lemma wp_Table_SetP {B : Type} field key value (k : option error -> M B) Q p :
  match field p with
  | Some name =>
      match kernel_tables (probe p) !! name with
      | Some t =>
          match tbl_set t key value with
          | Some t' =>
              wp (k None) Q
                 (record_event (EvTableSetP name key value true)
                    (set_probe (fun pr => Probe_update pr name t') p))
          | None =>
              wp (k (Some (errors_New "couldn't set key"))) Q
                 (record_event (EvTableSetP name key value false) p)
          end
      | None => Q (Panic p)
      end
  | None => Q (Panic p)
  end ->
  wp (Table_SetP field key value ≫= k) Q p.
Proof.
  unfold wp, Table_SetP, with_table, mbind, M_bind.
  destruct (field p) as [name|]; [|done].
  destruct (kernel_tables (probe p) !! name); [|done].
  by destruct (tbl_set _ _ _).
Qed.

Lemma wp_Table_Delete {B : Type} field key (k : option error -> M B) Q p :
  match field p with
  | Some name =>
      match kernel_tables (probe p) !! name with
      | Some t =>
          wp (k (match tbl_get t key with
                 | Some _ => None
                 | None => Some (errors_New "couldn't delete key")
                 end)) Q
             (record_event (EvTableDelete name key)
                (set_probe (fun pr => Probe_update pr name (tbl_delete t key)) p))
      | None => Q (Panic p)
      end
  | None => Q (Panic p)
  end ->
  wp (Table_Delete field key ≫= k) Q p.
Proof.
  unfold wp, Table_Delete, with_table, mbind, M_bind.
  destruct (field p) as [name|]; [|done].
  by destruct (kernel_tables (probe p) !! name).
Qed.

Ltac wp_simpl :=
  cbn [pidCookieMap procCacheMap inodeNumlowerMap entryCache history resolvers
       probe record_event set_resolvers set_entryCache set_probe
       set_inodeNumlowerMap set_procCacheMap set_pidCookieMap
       kernel_tables tablesMap Probe_update final returned].

Ltac wp_match x :=
  first
    [ match goal with H : x = _ |- _ => rewrite H end
    | lazymatch x with
      | @decide _ _ => destruct x
      | _ => destruct x eqn:?
      end ].

Ltac wp_step :=
  lazymatch goal with
  | |- wp (mret _) _ _ => apply wp_ret
  | |- wp panic _ _ => apply wp_panic
  | |- wp (call _ _ ≫= _) _ _ => apply wp_call
  | |- wp (modify _ ≫= _) _ _ => apply wp_modify
  | |- wp (read _ ≫= _) _ _ => apply wp_read
  | |- wp (AddEntry _ _ ≫= _) _ _ => apply wp_modify
  | |- wp (Table_Get _ _ ≫= _) _ _ => apply wp_Table_Get
  | |- wp (Table_SetP _ _ _ ≫= _) _ _ => apply wp_Table_SetP
  | |- wp (Table_Delete _ _ ≫= _) _ _ => apply wp_Table_Delete
  | |- wp (match ?x with _ => _ end) _ _ => wp_match x
  | |- match ?x with _ => _ end => wp_match x
  end; wp_simpl; rewrite ?lookup_insert_ne by done.

Ltac wp_run := repeat wp_step.

Lemma started_handles p :
  started p = true ->
  procCacheMap p = Some "proc_cache"%string /\
  pidCookieMap p = Some "pid_cookie"%string /\
  (exists t, kernel_tables (probe p) !! "proc_cache"%string = Some t) /\
  (exists t, kernel_tables (probe p) !! "pid_cookie"%string = Some t).
Proof.
  unfold started, bound. rewrite !andb_true_iff, !bool_decide_eq_true.
  intros [[? [t1 ?]] [? [t2 ?]]]. eauto 10.
Qed.

Lemma table_data_lookup p name t :
  kernel_tables (probe p) !! name = Some t -> table_data p name = tbl_data t.
Proof. intros H. unfold table_data. by rewrite H. Qed.

Ltac use_started H :=
  let Hpc := fresh "Hpc" in let Hpk := fresh "Hpk" in
  let tc := fresh "tc" in let tk := fresh "tk" in
  let Htc := fresh "Htc" in let Htk := fresh "Htk" in
  destruct (started_handles _ H) as (Hpc & Hpk & [tc Htc] & [tk Htk]);
  unfold pid_cookie, proc_cache in *;
  rewrite ?(table_data_lookup _ _ _ Htc), ?(table_data_lookup _ _ _ Htk) in *.

Lemma events_since_app p p' delta :
  history p' = history p ++ delta -> events_since p p' = delta.
Proof. intros H. unfold events_since. by rewrite H, drop_app_length. Qed.

(** C5. When [pid_cookie] already has an entry for the pid, snapshotProcess
    returns false right after that one table read: the kernel tables, the
    userspace cache and the outside state are as before, the only recorded
    call is the read, and the same holds when it is called again. *)
Theorem snapshotProcess_idempotent pid p :
  started p = true ->
  is_Some (pid_cookie p !! pid_key pid) ->
  let p1 := record_event (EvTableGet "pid_cookie" (pid_key pid)) p in
  let p2 := record_event (EvTableGet "pid_cookie" (pid_key pid)) p1 in
  snapshotProcess X pid p = Ok false p1 /\
  snapshotProcess X pid p1 = Ok false p2 /\
  probe p2 = probe p /\ entryCache p2 = entryCache p /\
  resolvers p2 = resolvers p /\
  events_since p p2 = [EvTableGet "pid_cookie" (pid_key pid);
                       EvTableGet "pid_cookie" (pid_key pid)].
Proof.
  intros Hs [c Hc] p1 p2. use_started Hs.
  assert (Hrun : forall q, pidCookieMap q = pidCookieMap p -> probe q = probe p ->
            snapshotProcess X pid q
            = Ok false (record_event (EvTableGet "pid_cookie" (pid_key pid)) q)).
  { intros q Hq1 Hq2.
    change (wp (snapshotProcess X pid)
              (fun o => o = Ok false (record_event (EvTableGet "pid_cookie" (pid_key pid)) q)) q).
    unfold snapshotProcess. fold (pid_key pid).
    rewrite Hpk in Hq1. rewrite <- Hq2 in Htk.
    wp_run. reflexivity. }
  split; [by apply Hrun |]. split; [by apply Hrun |].
  repeat split.
  apply events_since_app. unfold p2, p1. simpl. by rewrite <- app_assoc.
Qed.


Ltac wp_intro m p :=
  match goal with
  | |- ?G =>
      let Q := eval pattern (m p) in G in
      match Q with ?Q' _ => change (wp m Q' p) end
  end.

(** C10. snapshotProcess leaves the userspace cache as it found it when it
    stops at the idempotency check, at the mount sync, at the container ID
    or at the readlink of the executable, and returns false there.  In any
    run, the cache changes only by the one write that follows a successful
    readlink. *)
Theorem snapshotProcess_early_exit_keeps_cache pid p :
  started p = true ->
  let s := MountResolver_SyncCache X pid (resolvers p) in
  let c := ContainerResolver_GetContainerID X pid s.2 in
  let l := os_Readlink X (utils_ProcExePath X pid) c.2 in
  let o := snapshotProcess X pid p in
  (is_Some (pid_cookie p !! pid_key pid) \/ sync_aborts s.1 = true \/
   is_failed c.1 = true \/ is_failed l.1 = true ->
   returned o = Some false /\ entryCache (final o) = entryCache p) /\
  (entryCache (final o) <> entryCache p ->
   exists path, l.1 = Value path /\
     pid_cookie p !! pid_key pid = None /\ sync_aborts s.1 = false /\
     is_failed c.1 = false /\
     entryCache (final o) = <[pid := provisional path]> (entryCache p)).
Proof.
  intros Hs s c l o. use_started Hs. subst o s c l.
  wp_intro (snapshotProcess X pid) p.
  unfold snapshotProcess, sync_aborts. fold (pid_key pid).
  wp_run.
  all: cbn [is_failed] in *.
  all: split;
    [ intros [[? ?]|[?|[?|?]]]; try done; congruence
    | intros Hne; try (by destruct Hne); eexists; repeat split; done ].
Qed.

(** C6. Once the exe link of the pid has been read, the provisional entry
    with that path is in the userspace cache, and it is still there whatever
    the rest of the insertion does: whether it returns true, returns false
    at a later step, or panics.  A failing stat is such a later step. *)
Theorem snapshotProcess_provisional_entry pid p path :
  started p = true ->
  pid_cookie p !! pid_key pid = None ->
  let s := MountResolver_SyncCache X pid (resolvers p) in
  let c := ContainerResolver_GetContainerID X pid s.2 in
  let l := os_Readlink X (utils_ProcExePath X pid) c.2 in
  let st := os_Stat X (utils_ProcExePath X pid) l.2 in
  sync_aborts s.1 = false ->
  is_failed c.1 = false ->
  l.1 = Value path ->
  let o := snapshotProcess X pid p in
  entryCache (final o) = <[pid := provisional path]> (entryCache p) /\
  entryCache (final o) !! pid = Some (provisional path) /\
  (is_failed st.1 = true -> returned o = Some false).
Proof.
  intros Hs Hk s c l st Hsync Hc Hl o. use_started Hs. subst o st l c s.
  assert (Hcache : entryCache (final (snapshotProcess X pid p))
                   = <[pid := provisional path]> (entryCache p)).
  { wp_intro (snapshotProcess X pid) p.
    unfold snapshotProcess, sync_aborts in *. fold (pid_key pid).
    wp_run; cbn [is_failed] in *; simplify_eq; reflexivity. }
  split; [done|]. split; [by rewrite Hcache, lookup_insert_eq|].
  wp_intro (snapshotProcess X pid) p.
  unfold snapshotProcess, sync_aborts in *. fold (pid_key pid).
  wp_run; cbn [is_failed] in *; simplify_eq; done.
Qed.


Lemma bind_Table_Get {B : Type} field name t key (k : option bytes -> M B) p :
  field p = Some name ->
  kernel_tables (probe p) !! name = Some t ->
  (Table_Get field key ≫= k) p
  = k (tbl_data t !! key) (record_event (EvTableGet name key) p).
Proof.
  intros Hf Ht. unfold Table_Get, with_table, mbind, M_bind.
  by rewrite Hf, Ht.
Qed.

Lemma bind_call {A B : Type} e (f : W -> A * W) (k : A -> M B) p :
  (call e f ≫= k) p
  = k (f (resolvers p)).1 (record_event e (set_resolvers (f (resolvers p)).2 p)).
Proof. reflexivity. Qed.

(** C9. When the mount resolver's SyncCache reports "no such process", the
    insertion goes on exactly as it does with a sync that reported nothing.
    When it reports any other error, the insertion returns false after the
    table read and the sync, with no kernel-table write and the cache as it
    was, and the pass goes on with the processes that follow. *)
Theorem snapshotProcess_mount_sync pid p e :
  started p = true ->
  pid_cookie p !! pid_key pid = None ->
  (MountResolver_SyncCache X pid (resolvers p)).1 = Some e ->
  (os_IsNotExist e = true ->
   snapshotProcess X pid p = snapshotProcess sync_succeeds pid p) /\
  (os_IsNotExist e = false ->
   let p' := record_event (EvSyncCache pid)
               (set_resolvers (MountResolver_SyncCache X pid (resolvers p)).2
                  (record_event (EvTableGet "pid_cookie" (pid_key pid)) p)) in
   snapshotProcess X pid p = Ok false p' /\
   probe p' = probe p /\ entryCache p' = entryCache p /\
   table_writes (events_since p p') = [] /\
   forall proc rest b,
     uint32 (Pid proc) = pid -> String.length (Exe proc) <> 0%nat ->
     snapshot_range X (proc :: rest) b p = snapshot_range X rest b p').
Proof.
  intros Hs Hk He. use_started Hs. split; intros Hne.
  - unfold snapshotProcess.
    change (byteOrder sync_succeeds) with (byteOrder X). fold (pid_key pid).
    rewrite !(bind_Table_Get _ _ _ _ _ _ Hpk Htk), Hk, !bind_call.
    wp_simpl. cbn [MountResolver_SyncCache sync_succeeds fst snd].
    rewrite He, Hne. reflexivity.
  - set (p' := record_event (EvSyncCache pid) _).
    assert (Hrun : snapshotProcess X pid p = Ok false p').
    { unfold snapshotProcess. fold (pid_key pid).
      rewrite (bind_Table_Get _ _ _ _ _ _ Hpk Htk), Hk, bind_call.
      wp_simpl. rewrite He, Hne. reflexivity. }
    split; [done|]. repeat split.
    + erewrite events_since_app; [|unfold p'; cbn; by rewrite <- app_assoc].
      reflexivity.
    + intros proc rest b Hpid Hexe. cbn [snapshot_range].
      destruct (decide _) as [|_]; [done|].
      unfold mbind at 1, M_bind. by rewrite Hpid, Hrun.
Qed.


Lemma tbl_set_Some t k v t' :
  tbl_set t k v = Some t' -> tbl_data t' = <[k := v]> (tbl_data t).
Proof. unfold tbl_set. case_match; [done|]. by intros [= <-]. Qed.

Lemma no_dangling_spec p :
  no_dangling p = true <->
  forall k c, pid_cookie p !! k = Some c -> is_Some (proc_cache p !! c).
Proof. unfold no_dangling. by rewrite bool_decide_eq_true. Qed.

Lemma no_dangling_step p p' :
  (forall c, is_Some (proc_cache p !! c) -> is_Some (proc_cache p' !! c)) ->
  (forall k c, pid_cookie p' !! k = Some c ->
     pid_cookie p !! k = Some c \/ is_Some (proc_cache p' !! c)) ->
  no_dangling p = true -> no_dangling p' = true.
Proof.
  rewrite !no_dangling_spec. intros Hgrow Hnew Hp k c Hk.
  destruct (Hnew k c Hk) as [Hold|]; [|done]. eauto.
Qed.

(** C1. The kernel-table writes of one snapshotProcess are, in order: none;
    or one refused insert into [proc_cache]; or the accepted insert of the
    entry under the fresh cookie followed by the insert of the pointer
    [pid_cookie[pid] = cookie].  So the pointer is attempted only after the
    entry it refers to is in [proc_cache], a refused entry insert is never
    followed by a pointer insert, and a table chain without dangling cookies
    stays without. *)
Theorem snapshotProcess_entry_before_pointer pid p :
  started p = true ->
  let o := snapshotProcess X pid p in
  exists delta, history (final o) = history p ++ delta /\
    ((table_writes delta = [] /\ probe (final o) = probe p /\
      returned o <> Some true) \/
     (exists c v, table_writes delta = [EvTableSetP "proc_cache" c v false] /\
        probe (final o) = probe p /\ returned o = Some false) \/
     (exists c v ok,
        table_writes delta = [EvTableSetP "proc_cache" c v true;
                              EvTableSetP "pid_cookie" (pid_key pid) c ok] /\
        proc_cache (final o) = <[c := v]> (proc_cache p) /\
        pid_cookie (final o)
        = (if ok then <[pid_key pid := c]> (pid_cookie p) else pid_cookie p) /\
        returned o = Some ok)) /\
    (no_dangling p = true -> no_dangling (final o) = true).
Proof.
  intros Hs o. subst o.
  assert (Hsame : forall q, probe q = probe p ->
            no_dangling p = true -> no_dangling q = true).
  { intros q Hq. unfold no_dangling, pid_cookie, proc_cache, table_data.
    by rewrite Hq. }
  use_started Hs.
  wp_intro (snapshotProcess X pid) p.
  unfold snapshotProcess. fold (pid_key pid).
  wp_run.
  all: eexists; split; [rewrite <- ?app_assoc; reflexivity|].
  all: cbn [app table_writes List.filter is_table_write].
  all: try (split; [left; done | by apply Hsame]).
  all: try (split; [right; left; eauto | by apply Hsame]).
  all: pose proof (tbl_set_Some _ _ _ _ Heqo5) as Hc.
  all: try pose proof (tbl_set_Some _ _ _ _ Heqo6) as Hk.
  all: match goal with
       | |- context [EvTableSetP "proc_cache" ?c ?v _] =>
           set (cookieb := c) in *; set (entryb := v) in *
       end.
  - split.
    + right; right. exists cookieb, entryb, true. split; [reflexivity|].
      unfold proc_cache, pid_cookie, table_data. wp_simpl.
      repeat (rewrite lookup_insert_eq || rewrite lookup_insert_ne by done).
      by rewrite ?Htc, ?Htk, ?Hc, ?Hk.
    + apply no_dangling_step.
      * intros c. unfold proc_cache, table_data. wp_simpl.
        repeat (rewrite lookup_insert_eq || rewrite lookup_insert_ne by done).
        rewrite ?Htc, ?Hc. intros [x Hx].
        destruct (decide (c = cookieb)) as [->|].
        -- rewrite lookup_insert_eq. eauto.
        -- rewrite lookup_insert_ne by done. eauto.
      * intros k c. unfold pid_cookie, proc_cache, table_data. wp_simpl.
        repeat (rewrite lookup_insert_eq || rewrite lookup_insert_ne by done).
        rewrite ?Htk, ?Hc, ?Hk.
        destruct (decide (k = pid_key pid)) as [->|].
        -- rewrite lookup_insert_eq. intros [= <-]. right.
           rewrite lookup_insert_eq. eauto.
        -- rewrite lookup_insert_ne by done. eauto.
  - split.
    + right; right. exists cookieb, entryb, false. split; [reflexivity|].
      unfold proc_cache, pid_cookie, table_data. wp_simpl.
      repeat (rewrite lookup_insert_eq || rewrite lookup_insert_ne by done).
      by rewrite ?Htc, ?Htk, ?Hc.
    + apply no_dangling_step.
      * intros c. unfold proc_cache, table_data. wp_simpl.
        repeat (rewrite lookup_insert_eq || rewrite lookup_insert_ne by done).
        rewrite ?Htc, ?Hc. intros [x Hx].
        destruct (decide (c = cookieb)) as [->|].
        -- rewrite lookup_insert_eq. eauto.
        -- rewrite lookup_insert_ne by done. eauto.
      * intros k c. unfold pid_cookie, table_data. wp_simpl.
        repeat (rewrite lookup_insert_eq || rewrite lookup_insert_ne by done).
        eauto.
Qed.


(** C3. Resolve answers from the userspace cache, without any recorded call,
    when the pid is in it.  Otherwise, when the walk through [pid_cookie]
    and [proc_cache], the decoding and the path resolution all succeed, it
    returns the entry made of the resolved path and timestamp, after reading
    [pid_cookie] and then [proc_cache]; the entry is then in the cache, and
    a second Resolve returns it without any further call. *)
Theorem Resolve_cache_then_fallback pid p :
  (forall entry, entryCache p !! pid = Some entry ->
     Resolve X pid p = Ok entry p) /\
  (forall cookieb entryb procCacheEntry,
     started p = true ->
     entryCache p !! pid = None ->
     pid_cookie p !! pid_key pid = Some cookieb ->
     proc_cache p !! cookieb = Some entryb ->
     ProcCacheEntry_UnmarshalBinary X entryb = Value procCacheEntry ->
     let path := FileEvent_ResolveInode X (FileEvent_ procCacheEntry) (resolvers p) in
     let time := TimeResolver_ResolveMonotonicTimestamp X
                   (TimestampRaw procCacheEntry) path.2 in
     let entry := {| PathnameStr := path.1; Timestamp := time.1 |} in
     path.1 <> dentryPathKeyNotFound X ->
     exists p',
       Resolve X pid p = Ok (Some entry) p' /\
       events_since p p' = [EvTableGet "pid_cookie" (pid_key pid);
                            EvTableGet "proc_cache" cookieb;
                            EvResolveInode; EvResolveMonotonicTimestamp] /\
       entryCache p' = <[pid := Some entry]> (entryCache p) /\
       probe p' = probe p /\
       Resolve X pid p' = Ok (Some entry) p').
Proof.
  split.
  - intros entry Hhit. unfold Resolve.
    wp_intro (read entryCache ≫= fun c =>
      match c !! pid with Some entry => mret entry | None => resolve X pid end) p.
    wp_run. reflexivity.
  - intros cookieb entryb pce Hs Hmiss Hk Hc Hdec path time entry Hpath.
    use_started Hs. eexists. split.
    + unfold Resolve.
      wp_intro (read entryCache ≫= fun c =>
        match c !! pid with Some entry => mret entry | None => resolve X pid end) p.
      wp_step. wp_step. unfold resolve. fold (pid_key pid).
      wp_run; [done|]. reflexivity.
    + split; [apply events_since_app; cbn; by rewrite <- !app_assoc|].
      split; [reflexivity|]. split; [reflexivity|].
      unfold Resolve.
      match goal with |- _ ?q = _ =>
        wp_intro (read entryCache ≫= fun c =>
          match c !! pid with Some entry => mret entry | None => resolve X pid end) q
      end.
      wp_step. rewrite lookup_insert_eq. wp_step. reflexivity.
Qed.

(** C4. For a pid that is not in the userspace cache, Resolve returns
    nothing and leaves the cache as it was when [pid_cookie] has no entry
    for the pid, when [proc_cache] has no entry for the cookie, when the
    entry cannot be decoded, and when the path resolver answers with the
    "not found" sentinel.  Whenever Resolve does change the cache, it
    returned the entry it stored there. *)
Theorem Resolve_miss_not_cached pid p :
  started p = true ->
  entryCache p !! pid = None ->
  let o := Resolve X pid p in
  let absent := returned o = Some None /\ entryCache (final o) = entryCache p in
  (pid_cookie p !! pid_key pid = None -> absent) /\
  (forall cookieb,
     pid_cookie p !! pid_key pid = Some cookieb ->
     proc_cache p !! cookieb = None -> absent) /\
  (forall cookieb entryb,
     pid_cookie p !! pid_key pid = Some cookieb ->
     proc_cache p !! cookieb = Some entryb ->
     is_failed (ProcCacheEntry_UnmarshalBinary X entryb) = true -> absent) /\
  (forall cookieb entryb procCacheEntry,
     pid_cookie p !! pid_key pid = Some cookieb ->
     proc_cache p !! cookieb = Some entryb ->
     ProcCacheEntry_UnmarshalBinary X entryb = Value procCacheEntry ->
     (FileEvent_ResolveInode X (FileEvent_ procCacheEntry) (resolvers p)).1
     = dentryPathKeyNotFound X -> absent) /\
  (entryCache (final o) <> entryCache p ->
   exists entry,
     returned o = Some (Some entry) /\
     PathnameStr entry <> dentryPathKeyNotFound X /\
     entryCache (final o) = <[pid := Some entry]> (entryCache p)).
Proof.
  intros Hs Hmiss o absent. subst absent o. use_started Hs.
  assert (HR : Resolve X pid p = resolve X pid p).
  { unfold Resolve.
    wp_intro (read entryCache ≫= fun c =>
      match c !! pid with Some entry => mret entry | None => resolve X pid end) p.
    wp_run. reflexivity. }
  rewrite HR. clear HR.
  wp_intro (resolve X pid) p. unfold resolve. fold (pid_key pid).
  wp_run.
  all: cbn [is_failed] in *.
  all: repeat split; intros; simplify_eq; try done.
  all: try match goal with
           | H : is_failed ?x = true, H' : ?x = _ |- _ => by rewrite H' in H
           | H : ?x = Value _, H' : ?x = Value _ |- _ =>
               rewrite H' in H; by simplify_eq
           end.
  eexists. split; [reflexivity|]. split; [|reflexivity]. done.
Qed.

(** C8. DelEntry removes the pid from the userspace cache and its pointer
    from [pid_cookie]; [proc_cache] and the cache entries of the other pids
    are as before.  After it, the kernel fallback finds no pointer and
    returns nothing, and so does Resolve. *)
Theorem DelEntry_removes_pointer_only pid p :
  started p = true ->
  exists p',
    DelEntry X pid p = Ok tt p' /\
    entryCache p' = delete pid (entryCache p) /\
    entryCache p' !! pid = None /\
    (forall pid', pid' <> pid -> entryCache p' !! pid' = entryCache p !! pid') /\
    pid_cookie p' = delete (pid_key pid) (pid_cookie p) /\
    pid_cookie p' !! pid_key pid = None /\
    proc_cache p' = proc_cache p /\
    returned (resolve X pid p') = Some None /\
    returned (Resolve X pid p') = Some None.
Proof.
  intros Hs. use_started Hs. eexists. split.
  { wp_intro (DelEntry X pid) p. unfold DelEntry. fold (pid_key pid).
    wp_run. reflexivity. }
  wp_simpl. split; [reflexivity|]. split; [apply lookup_delete_eq|].
  split; [intros; by apply lookup_delete_ne|].
  unfold pid_cookie, proc_cache, table_data. wp_simpl.
  rewrite lookup_insert_eq, lookup_insert_ne by done. rewrite ?Htc.
  split; [reflexivity|]. cbn [tbl_data tbl_delete].
  split; [apply lookup_delete_eq|]. split; [reflexivity|].
  match goal with |- returned (resolve X pid ?q) = _ /\ _ =>
    assert (Hres : returned (resolve X pid q) = Some None)
  end.
  { match goal with |- returned (resolve X pid ?q) = _ =>
      wp_intro (resolve X pid) q end.
    unfold resolve. fold (pid_key pid).
    wp_step. wp_step. rewrite lookup_insert_eq.
    cbn [tbl_data tbl_delete]. rewrite lookup_delete_eq. by wp_run. }
  split; [exact Hres|].
  unfold Resolve.
  match goal with |- returned (_ ?q) = _ =>
    wp_intro (read entryCache ≫= fun c =>
      match c !! pid with Some entry => mret entry | None => resolve X pid end) q
  end.
  wp_step. rewrite lookup_delete_eq. exact Hres.
Qed.


(** *** Histories *)

Lemma forallb_app_true {A : Type} (f : A -> bool) l1 l2 :
  forallb f l1 = true -> forallb f l2 = true -> forallb f (l1 ++ l2) = true.
Proof. intros H1 H2. by rewrite forallb_app, H1, H2. Qed.


Lemma attempts_app l1 l2 : attempts (l1 ++ l2) = (attempts l1 + attempts l2)%nat.
Proof. unfold attempts. by rewrite List.filter_app, length_app. Qed.

Lemma attempts_process_events l :
  forallb is_process_event l = true -> attempts l = 0%nat.
Proof.
  induction l as [|e l IH]; [done|]. cbn [forallb].
  rewrite andb_true_iff. intros [He Hl]. unfold attempts in *. cbn [List.filter].
  destruct e; try done; cbn; auto.
Qed.

Lemma started_set_probe p name t :
  started p = true ->
  started (set_probe (fun pr => Probe_update pr name t) p) = true.
Proof.
  unfold started, bound. cbn.
  rewrite !andb_true_iff, !bool_decide_eq_true.
  intros [[? [t1 ?]] [? [t2 ?]]]. repeat split; try done.
  - destruct (decide (name = "proc_cache"%string)) as [->|].
    + rewrite lookup_insert_eq. eauto.
    + rewrite lookup_insert_ne by done. eauto.
  - destruct (decide (name = "pid_cookie"%string)) as [->|].
    + rewrite lookup_insert_eq. eauto.
    + rewrite lookup_insert_ne by done. eauto.
Qed.

Lemma started_record_event e p : started (record_event e p) = started p.
Proof. reflexivity. Qed.

Lemma started_set_resolvers w p : started (set_resolvers w p) = started p.
Proof. reflexivity. Qed.

Lemma started_set_entryCache f p : started (set_entryCache f p) = started p.
Proof. reflexivity. Qed.

Ltac solve_started H :=
  repeat first
    [ rewrite started_record_event
    | rewrite started_set_resolvers
    | rewrite started_set_entryCache
    | apply started_set_probe ];
  exact H.

Ltac solve_history :=
  cbn [final history record_event set_resolvers set_entryCache set_probe
       set_inodeNumlowerMap];
  rewrite <- ?app_assoc;
  first [ reflexivity | symmetry; apply app_nil_r ].

(** The calls of one insertion, for any state of the resolver. *)
Lemma snapshotProcess_events pid p :
  exists delta,
    history (final (snapshotProcess X pid p)) = history p ++ delta /\
    forallb is_process_event delta = true.
Proof.
  wp_intro (snapshotProcess X pid) p. unfold snapshotProcess.
  wp_run.
  all: eexists; split; [solve_history | reflexivity].
Qed.




(** *** Passes *)

Lemma has_exe_length proc :
  has_exe proc = true <-> String.length (Exe proc) <> 0%nat.
Proof. unfold has_exe. by destruct (Exe proc). Qed.

(** The loop of [snapshot] attempts exactly the processes that have an exe
    path, in the order of the enumeration. *)
Lemma snapshot_range_live processes b p :
  snapshot_range X processes b p = insert_each (live_pids processes) b p.
Proof.
  revert b p. induction processes as [|proc rest IH]; intros b p; [done|].
  cbn [snapshot_range]. unfold live_pids. cbn [List.filter].
  destruct (decide _) as [Hlen|Hlen].
  - assert (has_exe proc = false) as ->.
    { destruct (has_exe proc) eqn:E; [|done]. by apply has_exe_length in E. }
    apply IH.
  - apply has_exe_length in Hlen. rewrite Hlen. cbn [map insert_each].
    unfold mbind, M_bind. destruct (snapshotProcess _ _ _); [|done]. apply IH.
Qed.

Lemma insert_each_events pids b p :
  exists delta,
    history (final (insert_each pids b p)) = history p ++ delta /\
    forallb is_process_event delta = true.
Proof.
  revert b p. induction pids as [|pid rest IH]; intros b p.
  - exists []. by rewrite app_nil_r.
  - cbn [insert_each]. unfold mbind, M_bind.
    destruct (snapshotProcess_events pid p) as (d1 & H1 & F1).
    destruct (snapshotProcess X pid p) as [r p1|p1]; cbn [final] in *.
    + destruct (IH (if r then true else b) p1) as (d2 & H2 & F2).
      exists (d1 ++ d2). rewrite H2, H1, app_assoc.
      split; [done|]. by apply forallb_app_true.
    + eauto.
Qed.


(** The calls of one pass, for any state of the resolver. *)
Lemma snapshot_events p :
  exists delta,
    history (final (snapshot X p)) = history p ++ EvAllProcesses :: delta /\
    forallb is_process_event delta = true.
Proof.
  unfold snapshot. rewrite bind_call.
  destruct (process_AllProcesses X (resolvers p)).1 as [err|processes].
  - exists []. done.
  - unfold mbind, M_bind. rewrite snapshot_range_live.
    match goal with |- context [insert_each ?l ?b ?q] =>
      destruct (insert_each_events l b q) as (d & Hd & Fd);
      destruct (insert_each l b q) as [[] p1|p1]
    end; unfold mret, M_ret; cbn [final] in *; exists d; rewrite Hd;
      cbn [history record_event set_resolvers]; by rewrite <- app_assoc.
Qed.


(** *** The retry loop *)

Lemma process_event_pass_event l :
  forallb is_process_event l = true -> forallb is_pass_event l = true.
Proof.
  rewrite !forallb_forall. intros H e He. unfold is_pass_event.
  by rewrite (H e He).
Qed.

Lemma Snapshot_retry_events n p :
  let o := Snapshot_retry X n p in
  exists delta,
    history (final o) = history p ++ delta /\
    forallb is_pass_event delta = true /\
    (attempts delta <= n)%nat /\
    (returned o = Some None -> (1 <= attempts delta)%nat) /\
    (forall e, returned o = Some (Some e) ->
       e = errors_New "unable to snapshot processes" /\ attempts delta = n).
Proof.
  revert p. induction n as [|n IH]; intros p.
  - exists []. cbn. rewrite app_nil_r. repeat split; try done.
    all: by intros; simplify_eq.
  - cbn [Snapshot_retry]. unfold mbind, M_bind.
    destruct (snapshot_events p) as (d1 & H1 & F1).
    pose proof (attempts_process_events d1 F1) as A1.
    apply process_event_pass_event in F1.
    destruct (snapshot X p) as [[e|] p1|p1]; cbn [final returned] in *.
    + destruct (IH p1) as (d2 & H2 & F2 & A2 & R2 & E2).
      exists ((EvAllProcesses :: d1) ++ d2).
      rewrite H2, H1, <- app_assoc. split; [done|].
      split; [by apply forallb_app_true|].
      rewrite attempts_app.
      change (attempts (EvAllProcesses :: d1)) with (S (attempts d1)).
      rewrite A1. split; [lia|]. split; [lia|].
      intros e' He'. destruct (E2 e' He') as [-> ->]. done.
    + exists (EvAllProcesses :: d1).
      change (attempts (EvAllProcesses :: d1)) with (S (attempts d1)).
      rewrite A1. repeat split; try done; lia.
    + exists (EvAllProcesses :: d1).
      change (attempts (EvAllProcesses :: d1)) with (S (attempts d1)).
      rewrite A1. repeat split; try done; lia.
Qed.




(** *** Snapshot *)

(** Snapshot, step by step: the table registration, the binding of the
    handle, the registration of the kprobe, and then the retry loop under
    the deferred unregistration. *)
Lemma Snapshot_cases p :
  let r := Probe_RegisterTable (probe p) "inode_numlower" in
  let p1 := record_event (EvRegisterTable "inode_numlower")
              (set_probe (fun _ => r.2) p) in
  let h := Probe_Table (probe p1) "inode_numlower" in
  let p2 := set_inodeNumlowerMap h p1 in
  let kp := {| Name := "getattr"; EntryFunc := "kprobe/vfs_getattr" |} in
  let k := Module_RegisterKprobe X kp (resolvers p2) in
  let p3 := record_event
              (EvRegisterKprobe "getattr"
                 (match k.1 with None => true | Some _ => false end))
              (set_resolvers k.2 p2) in
  Snapshot X p =
  match r.1 with
  | Some e => Ok (Some e) p1
  | None =>
      match h with
      | None => Ok (Some (errors_New "inode_numlower BPF_HASH table doesn't exist")) p2
      | Some _ =>
          match k.1 with
          | Some e =>
              Ok (Some (errors_Wrapf e (String.append "couldn't register kprobe " "getattr"))) p3
          | None =>
              defer (unregister_kprobes X processSnapshotProbes)
                    (Snapshot_retry X 5) p3
          end
      end
  end.
Proof.
  intros r p1 h p2 kp k p3. unfold Snapshot, processSnapshotTables.
  cbn [register_tables]. unfold mbind, M_bind, probe_RegisterTable.
  fold r. fold p1. destruct r.1; [reflexivity|].
  unfold mret, M_ret, probe_Table, read, modify. fold h. fold p2.
  destruct h; [|reflexivity].
  unfold processSnapshotProbes. cbn [register_kprobes].
  unfold mbind, M_bind, call_checked. fold kp. fold k. cbn [Name]. fold p3.
  destruct k.1; reflexivity.
Qed.

Lemma defer_unregister {A : Type} (body : M A) p :
  let o := body p in
  let u := Module_UnregisterKprobe X
             {| Name := "getattr"; EntryFunc := "kprobe/vfs_getattr" |}
             (resolvers (final o)) in
  let o' := defer (unregister_kprobes X processSnapshotProbes) body p in
  returned o' = returned o /\
  final o' = record_event
               (EvUnregisterKprobe "getattr"
                  (match u.1 with None => true | Some _ => false end))
               (set_resolvers u.2 (final o)).
Proof.
  intros o u o'. subst o' u o. unfold defer.
  destruct (body p); done.
Qed.

Lemma pass_events_no_kprobe l :
  forallb is_pass_event l = true ->
  forallb (fun e => negb (is_kprobe_event e)) l = true.
Proof.
  rewrite !forallb_forall. intros H e He. specialize (H e He).
  by destruct e.
Qed.

Lemma no_kprobe_inert l :
  forallb (fun e => negb (is_kprobe_event e)) l = true ->
  unregistrations l = 0%nat /\ existsb is_activation l = false /\
  existsb is_deactivation l = false /\
  forall name a, active_after name l a = a.
Proof.
  induction l as [|e l IH]; [done|]. cbn [forallb].
  rewrite andb_true_iff. intros [He Hl].
  destruct (IH Hl) as (U & E & D & A). unfold unregistrations, active_after in *.
  cbn [List.filter existsb fold_left].
  destruct e; try done; cbn; auto.
Qed.

Lemma unregistrations_app l1 l2 :
  unregistrations (l1 ++ l2) = (unregistrations l1 + unregistrations l2)%nat.
Proof. unfold unregistrations. by rewrite List.filter_app, length_app. Qed.

Lemma active_after_app name l1 l2 a :
  active_after name (l1 ++ l2) a = active_after name l2 (active_after name l1 a).
Proof. unfold active_after. by rewrite fold_left_app. Qed.

(** The kprobe calls of Snapshot, with the recorded calls made explicit. *)
Lemma Snapshot_kprobe_events p :
  let o := Snapshot X p in
  let kp := {| Name := "getattr"; EntryFunc := "kprobe/vfs_getattr" |} in
  exists delta,
    history (final o) = history p ++ delta /\
    unregistrations delta = (if existsb is_activation delta then 1 else 0)%nat /\
    (existsb is_activation delta = true ->
     exists pre mid w,
       let u := Module_UnregisterKprobe X kp w in
       let ok := match u.1 with None => true | Some _ => false end in
       delta = pre ++ EvRegisterKprobe "getattr" true
                   :: mid ++ [EvUnregisterKprobe "getattr" ok] /\
       forallb (fun e => negb (is_kprobe_event e)) (pre ++ mid) = true /\
       resolvers (final o) = u.2 /\
       existsb is_deactivation delta = ok) /\
    (forall a,
       active_after "getattr" (history (final o)) a
       = if existsb is_activation delta
         then negb (existsb is_deactivation delta)
         else active_after "getattr" (history p) a).
Proof.
  intros o kp. subst o kp. rewrite Snapshot_cases.
  destruct (Probe_RegisterTable _ _).1.
  { eexists. split; [solve_history|]. repeat split; try done.
    intros a. cbn [final history record_event set_probe].
    by rewrite active_after_app. }
  destruct (Probe_Table _ _).
  2:{ eexists. split; [solve_history|]. repeat split; try done.
      intros a. cbn [final history record_event set_probe set_inodeNumlowerMap].
      by rewrite active_after_app. }
  destruct (Module_RegisterKprobe _ _ _).1.
  { eexists. split; [solve_history|]. repeat split; try done.
    intros a.
    cbn [final history record_event set_probe set_inodeNumlowerMap set_resolvers].
    by rewrite <- app_assoc, active_after_app. }
  match goal with |- context [defer _ _ ?q] =>
    destruct (defer_unregister (Snapshot_retry X 5) q) as [_ Hfin];
    destruct (Snapshot_retry_events 5 q) as (d & Hd & Fd & _);
    rewrite Hfin; clear Hfin;
    set (w := resolvers (final (Snapshot_retry X 5 q)))
  end.
  set (u := Module_UnregisterKprobe X _ w).
  set (ok := match u.1 with None => true | Some _ => false end).
  cbn [final history record_event set_resolvers resolvers]. rewrite Hd.
  cbn [history record_event set_probe set_inodeNumlowerMap set_resolvers].
  apply pass_events_no_kprobe in Fd.
  destruct (no_kprobe_inert d Fd) as (Ud & Ed & Dd & Ad).
  assert (Hde : existsb is_deactivation
                  ([EvRegisterTable "inode_numlower"; EvRegisterKprobe "getattr" true]
                   ++ d ++ [EvUnregisterKprobe "getattr" ok]) = ok).
  { cbn [app existsb is_deactivation orb]. rewrite existsb_app, Dd.
    cbn [existsb is_deactivation orb]. by destruct ok. }
  exists ([EvRegisterTable "inode_numlower"; EvRegisterKprobe "getattr" true]
          ++ d ++ [EvUnregisterKprobe "getattr" ok]).
  split; [by rewrite <- !app_assoc|].
  split; [|split].
  - cbn [app existsb is_activation orb].
    change (unregistrations
              (EvRegisterTable "inode_numlower"
               :: EvRegisterKprobe "getattr" true
               :: d ++ [EvUnregisterKprobe "getattr" ok]))
      with (unregistrations (d ++ [EvUnregisterKprobe "getattr" ok])).
    by rewrite unregistrations_app, Ud.
  - intros _. exists [EvRegisterTable "inode_numlower"], d, w.
    cbv zeta. fold u. fold ok. split; [done|]. split; [done|]. split; [done|].
    exact Hde.
  - intros a. rewrite Hde. cbn [app existsb is_activation orb].
    rewrite !active_after_app, Ad. cbn. by destruct ok.
Qed.

(** C7. In any run of Snapshot, whether it returns or panics: if the kprobe
    was registered, the recorded calls are the setup, the registration, the
    calls of the retry loop (none of which concerns a kprobe) and, last, one
    call to unregister it, whose recorded result is what UnregisterKprobe
    returned; if it was not, there is no such call.  So the unregistration
    is attempted exactly once per successful registration, before Snapshot
    ends; the kprobe is inactive afterwards exactly when that call
    succeeded, and still active when it returned an error. *)
Theorem Snapshot_unregisters_once p :
  let o := Snapshot X p in
  let delta := events_since p (final o) in
  let kp := {| Name := "getattr"; EntryFunc := "kprobe/vfs_getattr" |} in
  history (final o) = history p ++ delta /\
  unregistrations delta = (if existsb is_activation delta then 1 else 0)%nat /\
  (existsb is_activation delta = true ->
   exists pre mid w,
     let u := Module_UnregisterKprobe X kp w in
     let ok := match u.1 with None => true | Some _ => false end in
     delta = pre ++ EvRegisterKprobe "getattr" true
                 :: mid ++ [EvUnregisterKprobe "getattr" ok] /\
     forallb (fun e => negb (is_kprobe_event e)) (pre ++ mid) = true /\
     resolvers (final o) = u.2 /\
     existsb is_deactivation delta = ok) /\
  (forall a,
     active_after "getattr" (history (final o)) a
     = if existsb is_activation delta
       then negb (existsb is_deactivation delta)
       else active_after "getattr" (history p) a).
Proof.
  intros o delta kp. subst delta o.
  destruct (Snapshot_kprobe_events p) as (d & Hd & H).
  by rewrite (events_since_app _ _ _ Hd).
Qed.



Lemma snapshot_unfold p :
  let r := process_AllProcesses X (resolvers p) in
  let p0 := record_event EvAllProcesses (set_resolvers r.2 p) in
  snapshot X p =
  match r.1 with
  | Failed err => Ok (Some err) p0
  | Value processes =>
      match insert_each (live_pids processes) false p0 with
      | Ok modified p' =>
          Ok (if modified then Some (errors_New "cache modified") else None) p'
      | Panic p' => Panic p'
      end
  end.
Proof.
  intros r p0. unfold snapshot. rewrite bind_call. fold r. fold p0.
  destruct r.1 as [err|processes]; [reflexivity|].
  unfold mbind, M_bind. rewrite snapshot_range_live.
  by destruct (insert_each _ _ _) as [[] ?|?].
Qed.




(** *** Byte order *)

Lemma Z_of_byte_of_Z v : Z_of_byte (byte_of_Z v) = v mod 256.
Proof.
  unfold Z_of_byte, byte_of_Z.
  assert (Hr : 0 <= v mod 256 < 256) by (apply Z.mod_pos_bound; lia).
  pose proof (Byte.to_of_N_option_map (Z.to_N (v mod 256))) as H.
  destruct (N.leb_spec (Z.to_N (v mod 256)) 255) as [_|Hgt]; [|lia].
  destruct (Byte.of_N (Z.to_N (v mod 256))) as [b|]; [|done].
  cbn in H. injection H as H. cbn [default id]. rewrite H. lia.
Qed.

Lemma le_value_le_bytes n v :
  le_value (le_bytes n v) = v mod 2 ^ (8 * Z.of_nat n).
Proof.
  revert v. induction n as [|n IH]; intros v.
  - cbn. by rewrite Z.mod_1_r.
  - cbn [le_bytes le_value]. rewrite IH, Z_of_byte_of_Z.
    apply Z.bits_inj'. intros i Hi.
    rewrite Z.lor_spec.
    change 256 with (2 ^ 8).
    rewrite !Z.testbit_mod_pow2 by lia.
    destruct (Z.ltb_spec i 8) as [Hlt|Hge].
    + rewrite Z.shiftl_spec_low by lia.
      destruct (Z.ltb_spec i (8 * Z.of_nat (S n))); [|lia].
      by rewrite orb_false_r.
    + rewrite Z.shiftl_spec_high by lia.
      rewrite Z.testbit_mod_pow2 by lia.
      rewrite Z.shiftr_spec by lia.
      replace (i - 8 + 8) with i by lia. cbn [andb orb].
      destruct (Z.ltb_spec (i - 8) (8 * Z.of_nat n)),
               (Z.ltb_spec i (8 * Z.of_nat (S n))); try lia; done.
Qed.

Lemma length_le_bytes n v : length (le_bytes n v) = n.
Proof. revert v. induction n as [|n IH]; intros v; cbn; [done|]. by rewrite IH. Qed.

(** Decoding the four bytes written for [v] gives [v] as a uint32. *)
Lemma Uint32_PutUint32 o v : Uint32 o (PutUint32 o v) = Some (uint32 v).
Proof.
  unfold Uint32, PutUint32, uint32.
  destruct o.
  - rewrite length_le_bytes. case_decide; [lia|].
    rewrite firstn_all2 by (rewrite length_le_bytes; lia).
    by rewrite le_value_le_bytes.
  - rewrite length_rev, length_le_bytes. case_decide; [lia|].
    rewrite firstn_all2 by (rewrite length_rev, length_le_bytes; lia).
    by rewrite rev_involutive, le_value_le_bytes.
Qed.

Lemma pid_key_inj pid pid' :
  pid_key pid = pid_key pid' -> uint32 pid = uint32 pid'.
Proof.
  unfold pid_key. intros H.
  pose proof (Uint32_PutUint32 (byteOrder X) pid) as H1.
  rewrite H, Uint32_PutUint32 in H1. congruence.
Qed.


Lemma byte_of_Z_mod v k :
  8 <= k -> byte_of_Z (v mod 2 ^ k) = byte_of_Z v.
Proof.
  intros Hk. unfold byte_of_Z. f_equal. f_equal. f_equal.
  change 256 with (2 ^ 8).
  replace k with (8 + (k - 8)) by lia.
  rewrite Z.pow_add_r by lia.
  rewrite Z.rem_mul_r by lia.
  rewrite Z.mul_comm, Z.mod_add by lia. apply Z.mod_mod. lia.
Qed.

Lemma le_bytes_mod n v : le_bytes n (v mod 2 ^ (8 * Z.of_nat n)) = le_bytes n v.
Proof.
  revert v. induction n as [|n IH]; intros v; [done|].
  cbn [le_bytes]. rewrite byte_of_Z_mod by lia. f_equal.
  rewrite <- (IH (Z.shiftr v 8)), <- (IH (Z.shiftr (v mod _) 8)). f_equal.
  rewrite !Z.shiftr_div_pow2 by lia.
  replace (8 * Z.of_nat (S n)) with (8 + 8 * Z.of_nat n) by lia.
  rewrite Z.pow_add_r by lia.
  rewrite Z.rem_mul_r by lia.
  rewrite (Z.mul_comm (2 ^ 8)), Z.div_add by lia.
  rewrite (Z.div_small (v mod 2 ^ 8)) by (apply Z.mod_pos_bound; lia).
  rewrite Z.add_0_l. apply Z.mod_mod. lia.
Qed.

Lemma PutUint32_uint32 o v : PutUint32 o (uint32 v) = PutUint32 o v.
Proof.
  unfold PutUint32, uint32.
  change (2 ^ 32) with (2 ^ (8 * Z.of_nat 4)).
  by rewrite le_bytes_mod.
Qed.

(** X1. The four-byte keys and values of the kernel tables: PutUint32
    writes four bytes, Uint32 reads back the value as a uint32 in either
    byte order, two values have the same bytes exactly when they are the
    same uint32, and a signed 32-bit value written by PutUint32 is what
    [int32 (Uint32 ...)] gives back (the way OverlayNumLower is decoded). *)
Theorem PutUint32_round_trip o v :
  length (PutUint32 o v) = 4%nat /\
  Uint32 o (PutUint32 o v) = Some (uint32 v) /\
  (forall v', PutUint32 o v = PutUint32 o v' <-> uint32 v = uint32 v') /\
  (- 2 ^ 31 <= v < 2 ^ 31 ->
   int32 <$> Uint32 o (PutUint32 o v) = Some v).
Proof.
  split; [|split; [|split]].
  - unfold PutUint32. destruct o; by rewrite ?length_rev, length_le_bytes.
  - apply Uint32_PutUint32.
  - intros v'. split.
    + intros H. pose proof (Uint32_PutUint32 o v) as H1.
      rewrite H, Uint32_PutUint32 in H1. congruence.
    + intros H. by rewrite <- (PutUint32_uint32 o v), H, PutUint32_uint32.
  - intros Hv. rewrite Uint32_PutUint32. cbn [fmap option_fmap option_map].
    f_equal. unfold int32, uint32. rewrite Z.mod_mod by lia.
    case_decide as Hlt.
    + destruct (Z.neg_nonneg_cases v) as [Hneg|Hpos].
      * exfalso. rewrite <- (Z.mod_add v 1) in Hlt by lia.
        rewrite Z.mod_small in Hlt by lia. lia.
      * apply Z.mod_small. lia.
    + destruct (Z.neg_nonneg_cases v) as [Hneg|Hpos].
      * rewrite <- (Z.mod_add v 1) by lia. rewrite Z.mod_small by lia. lia.
      * exfalso. rewrite Z.mod_small in Hlt by lia. lia.
Qed.


(** X2. AddEntry writes the userspace cache and nothing else, and the last
    writer wins.  After it, Resolve of that pid returns the stored pointer
    without any call to the kernel tables or to another resolver; this holds
    for a nil pointer as well, which therefore hides whatever the kernel
    tables say about the pid.  The entries of the other pids are as before. *)
Theorem AddEntry_then_Resolve pid entry p :
  let p1 := set_entryCache (fun c => <[pid := entry]> c) p in
  AddEntry pid entry p = Ok tt p1 /\
  Resolve X pid p1 = Ok entry p1 /\
  probe p1 = probe p /\ history p1 = history p /\ resolvers p1 = resolvers p /\
  (forall pid', pid' <> pid -> entryCache p1 !! pid' = entryCache p !! pid') /\
  (forall entry', final (AddEntry pid entry' p1) = final (AddEntry pid entry' p)).
Proof.
  intros p1. split; [reflexivity|]. split.
  { unfold Resolve, p1.
    wp_intro (read entryCache ≫= fun c =>
      match c !! pid with Some entry => mret entry | None => resolve X pid end)
      (set_entryCache (fun c => <[pid := entry]> c) p).
    wp_step. rewrite lookup_insert_eq. reflexivity. }
  split; [reflexivity|]. split; [reflexivity|]. split; [reflexivity|].
  split.
  - intros pid' Hne. cbn. by rewrite lookup_insert_ne.
  - intros entry'. unfold AddEntry, modify, p1, set_entryCache. cbn.
    by rewrite insert_insert_eq.
Qed.

(** X3. Resolve never writes to a kernel table and never rebinds a handle,
    in any outcome; it leaves the cache entries of every other pid as they
    were, and on a cache hit it changes nothing at all. *)
Theorem Resolve_reads_only pid p :
  let o := Resolve X pid p in
  probe (final o) = probe p /\
  procCacheMap (final o) = procCacheMap p /\
  pidCookieMap (final o) = pidCookieMap p /\
  inodeNumlowerMap (final o) = inodeNumlowerMap p /\
  (exists delta, history (final o) = history p ++ delta /\ table_writes delta = []) /\
  (forall pid', pid' <> pid -> entryCache (final o) !! pid' = entryCache p !! pid') /\
  (is_Some (entryCache p !! pid) -> final o = p).
Proof.
  intros o. subst o. unfold Resolve.
  wp_intro (read entryCache ≫= fun c =>
    match c !! pid with Some entry => mret entry | None => resolve X pid end) p.
  wp_step. wp_step.
  { wp_step. repeat split; try done.
    exists []. by rewrite app_nil_r. }
  unfold resolve. wp_run.
  all: repeat split; try done.
  all: try (eexists; split; [solve_history|reflexivity]).
  all: try (by intros [? ?]).
  intros pid' Hne. by rewrite lookup_insert_ne.
Qed.


Lemma DelEntry_run pid p tk :
  pidCookieMap p = Some "pid_cookie"%string ->
  kernel_tables (probe p) !! "pid_cookie"%string = Some tk ->
  DelEntry X pid p
  = Ok tt (record_event (EvTableDelete "pid_cookie" (pid_key pid))
             (set_probe (fun pr => Probe_update pr "pid_cookie"
                                     (tbl_delete tk (pid_key pid)))
                (set_entryCache (fun c => delete pid c) p))).
Proof.
  intros Hh Ht. wp_intro (DelEntry X pid) p. unfold DelEntry. fold (pid_key pid).
  wp_run. reflexivity.
Qed.

Lemma tbl_delete_absent t k : tbl_data t !! k = None -> tbl_delete t k = t.
Proof.
  intros H. destruct t as [d r]. unfold tbl_delete. cbn in *.
  by rewrite delete_id.
Qed.

Lemma tbl_delete_twice t k : tbl_delete (tbl_delete t k) k = tbl_delete t k.
Proof. apply tbl_delete_absent. cbn. apply lookup_delete_eq. Qed.

(** X4. DelEntry touches one pid only: for every pid' that differs from pid
    as a uint32, the pointer [pid_cookie[pid']] and the cache entry of pid'
    are what they were.  (Pids that are equal as uint32 have the same
    four-byte key.) *)
Theorem DelEntry_keeps_other_pids pid pid' p :
  started p = true ->
  uint32 pid' <> uint32 pid ->
  let p' := final (DelEntry X pid p) in
  pid_cookie p' !! pid_key pid' = pid_cookie p !! pid_key pid' /\
  entryCache p' !! pid' = entryCache p !! pid' /\
  proc_cache p' = proc_cache p.
Proof.
  intros Hs Hne p'. subst p'. use_started Hs.
  rewrite (DelEntry_run pid p tk Hpk Htk).
  unfold pid_cookie, proc_cache, table_data. wp_simpl.
  rewrite lookup_insert_eq, lookup_insert_ne by done. rewrite ?Htc, ?Htk.
  cbn [tbl_data tbl_delete].
  assert (Hk : pid_key pid <> pid_key pid').
  { intros H. apply Hne. symmetry. by apply pid_key_inj. }
  rewrite lookup_delete_ne by done.
  split; [done|]. split; [|done].
  apply lookup_delete_ne. intros ->. done.
Qed.

(** X5. DelEntry returns normally whether or not the pid is known (the
    error of the table delete is dropped).  For a pid with neither a cache
    entry nor a pointer it changes nothing but the history, and a second
    DelEntry of the same pid leaves the cache and the kernel tables exactly
    as the first one did. *)
Theorem DelEntry_idempotent pid p :
  started p = true ->
  let p1 := final (DelEntry X pid p) in
  let p2 := final (DelEntry X pid p1) in
  returned (DelEntry X pid p) = Some tt /\
  returned (DelEntry X pid p1) = Some tt /\
  started p1 = true /\
  probe p2 = probe p1 /\ entryCache p2 = entryCache p1 /\
  (entryCache p !! pid = None -> pid_cookie p !! pid_key pid = None ->
   probe p1 = probe p /\ entryCache p1 = entryCache p).
Proof.
  intros Hs p1 p2. pose proof Hs as Hs'. use_started Hs'.
  assert (H1 : DelEntry X pid p = Ok tt p1).
  { subst p1. by rewrite (DelEntry_run pid p tk Hpk Htk). }
  assert (Hs1 : started p1 = true).
  { subst p1. rewrite (DelEntry_run pid p tk Hpk Htk). cbn [final].
    solve_started Hs. }
  assert (Hp1 : probe p1 = Probe_update (probe p) "pid_cookie"
                             (tbl_delete tk (pid_key pid))).
  { subst p1. by rewrite (DelEntry_run pid p tk Hpk Htk). }
  assert (He1 : entryCache p1 = delete pid (entryCache p)).
  { subst p1. by rewrite (DelEntry_run pid p tk Hpk Htk). }
  assert (Hh1 : pidCookieMap p1 = Some "pid_cookie"%string).
  { subst p1. by rewrite (DelEntry_run pid p tk Hpk Htk). }
  assert (Ht1 : kernel_tables (probe p1) !! "pid_cookie"%string
                = Some (tbl_delete tk (pid_key pid))).
  { rewrite Hp1. cbn. apply lookup_insert_eq. }
  assert (H2 : DelEntry X pid p1
               = Ok tt (record_event (EvTableDelete "pid_cookie" (pid_key pid))
                   (set_probe (fun pr => Probe_update pr "pid_cookie"
                      (tbl_delete (tbl_delete tk (pid_key pid)) (pid_key pid)))
                      (set_entryCache (fun c => delete pid c) p1)))).
  { exact (DelEntry_run pid p1 _ Hh1 Ht1). }
  split; [by rewrite H1|]. split; [by rewrite H2|]. split; [done|].
  split; [|split].
  - subst p2. rewrite H2. cbn [final]. wp_simpl.
    rewrite tbl_delete_twice, Hp1. unfold Probe_update. cbn.
    by rewrite insert_insert_eq.
  - subst p2. rewrite H2. cbn [final]. wp_simpl. rewrite He1.
    apply delete_id, lookup_delete_eq.
  - intros Hc Hk. rewrite Hp1, He1. split.
    + rewrite tbl_delete_absent by done.
      destruct (probe p) as [kt tm]. unfold Probe_update. cbn in *.
      by rewrite insert_id.
    + by apply delete_id.
Qed.

(** X6. Start succeeds exactly when both [proc_cache] and [pid_cookie] are
    registered.  It assigns each handle before checking it: when
    [proc_cache] is missing its handle is left nil and [pid_cookie] is not
    looked up; when only [pid_cookie] is missing the first handle is bound
    and the second is nil.  Start changes nothing else, and after a
    successful Start on a registry whose names all have a kernel table the
    resolver is started. *)
Theorem Start_binds_handles p :
  let o := Start p in
  let pc := bool_decide ("proc_cache"%string ∈ tablesMap (probe p)) in
  let pk := bool_decide ("pid_cookie"%string ∈ tablesMap (probe p)) in
  returned o
  = Some (if pc then
            if pk then None
            else Some (errors_New "pid_cookie BPF_HASH table doesn't exist")
          else Some (errors_New "proc_cache BPF_HASH table doesn't exist")) /\
  procCacheMap (final o) = (if pc then Some "proc_cache"%string else None) /\
  pidCookieMap (final o)
  = (if pc then if pk then Some "pid_cookie"%string else None
     else pidCookieMap p) /\
  probe (final o) = probe p /\ entryCache (final o) = entryCache p /\
  history (final o) = history p /\ resolvers (final o) = resolvers p /\
  inodeNumlowerMap (final o) = inodeNumlowerMap p /\
  (pc && pk = true ->
   tablesMap (probe p) ⊆ dom (kernel_tables (probe p)) ->
   started (final o) = true).
Proof.
  intros o pc pk. subst o pc pk.
  unfold Start, probe_Table, Probe_Table, mbind, M_bind, read, modify, mret, M_ret.
  destruct (decide ("proc_cache"%string ∈ tablesMap (probe p))) as [Hc|Hc].
  - rewrite (bool_decide_eq_true_2 _ Hc). cbn.
    destruct (decide ("pid_cookie"%string ∈ tablesMap (probe p))) as [Hk|Hk].
    + rewrite (bool_decide_eq_true_2 _ Hk). cbn. repeat split; try done.
      intros _ Hwf. unfold started, bound. cbn.
      rewrite !andb_true_iff, !bool_decide_eq_true.
      repeat split; try done; apply elem_of_dom; set_solver.
    + rewrite (bool_decide_eq_false_2 _ Hk). cbn. repeat split; try done.
  - rewrite (bool_decide_eq_false_2 _ Hc). cbn. repeat split; try done.
Qed.



Lemma snapshotProcess_cache_after_readlink pid p path :
  started p = true ->
  pid_cookie p !! pid_key pid = None ->
  sync_aborts (MountResolver_SyncCache X pid (resolvers p)).1 = false ->
  is_failed (ContainerResolver_GetContainerID X pid
               (MountResolver_SyncCache X pid (resolvers p)).2).1 = false ->
  (os_Readlink X (utils_ProcExePath X pid)
     (ContainerResolver_GetContainerID X pid
        (MountResolver_SyncCache X pid (resolvers p)).2).2).1 = Value path ->
  entryCache (final (snapshotProcess X pid p))
  = <[pid := provisional path]> (entryCache p).
Proof.
  intros Hs Hk Hsync Hc Hl. use_started Hs.
  wp_intro (snapshotProcess X pid) p.
  unfold snapshotProcess, sync_aborts in *. fold (pid_key pid).
  wp_run; cbn [is_failed] in *; simplify_eq; reflexivity.
Qed.

(** X8. snapshotProcess followed by Resolve.  Once the exe link of the pid
    has been read, a Resolve of that pid is answered from the userspace
    cache with the provisional entry (the path and the zero timestamp) and
    makes no call, whether the insertion went on to publish the pid, failed
    at a later step, or panicked: the kernel tables are not consulted. *)
Theorem Resolve_after_snapshotProcess pid p path :
  started p = true ->
  pid_cookie p !! pid_key pid = None ->
  let s := MountResolver_SyncCache X pid (resolvers p) in
  let c := ContainerResolver_GetContainerID X pid s.2 in
  let l := os_Readlink X (utils_ProcExePath X pid) c.2 in
  sync_aborts s.1 = false ->
  is_failed c.1 = false ->
  l.1 = Value path ->
  let p' := final (snapshotProcess X pid p) in
  Resolve X pid p' = Ok (provisional path) p'.
Proof.
  intros Hs Hk s c l Hsync Hc Hl p'.
  pose proof (snapshotProcess_cache_after_readlink pid p path Hs Hk Hsync Hc Hl)
    as Hcache.
  fold p' in Hcache. clearbody p'.
  unfold Resolve.
  wp_intro (read entryCache ≫= fun c =>
    match c !! pid with Some entry => mret entry | None => resolve X pid end) p'.
  wp_step. rewrite Hcache, lookup_insert_eq. reflexivity.
Qed.


(** *** The table chain only grows *)

Lemma inserted_keys_app l1 l2 :
  inserted_keys (l1 ++ l2) = inserted_keys l1 ++ inserted_keys l2.
Proof. unfold inserted_keys. apply flat_map_app. Qed.

Lemma pointers_grow_refl p : pointers_grow p p [].
Proof.
  unfold pointers_grow. rewrite app_nil_r. cbn.
  repeat split; try done; [constructor | set_solver | set_solver].
Qed.

Lemma pointers_grow_trans p p1 p2 d1 d2 :
  pointers_grow p p1 d1 -> pointers_grow p1 p2 d2 ->
  pointers_grow p p2 (d1 ++ d2).
Proof.
  intros (H1 & N1 & F1 & D1 & S1 & C1 & I1) (H2 & N2 & F2 & D2 & S2 & C2 & I2).
  unfold pointers_grow. rewrite inserted_keys_app.
  split; [by rewrite H2, H1, app_assoc|].
  split.
  { apply NoDup_app. split; [done|]. split; [|done].
    intros k Hk1 Hk2. specialize (F2 k Hk2).
    assert (k ∈ dom (pid_cookie p1)) as Hd by (rewrite D1; set_solver).
    apply elem_of_dom in Hd as [c Hc]. congruence. }
  split.
  { intros k [Hk|Hk]%elem_of_app; [by apply F1|].
    specialize (F2 k Hk). by eapply lookup_weaken_None. }
  split; [rewrite D2, D1, list_to_set_app_L; set_solver|].
  split; [by etrans|]. split; [by etrans|]. auto.
Qed.

Lemma pointers_grow_frame p p' d :
  history p' = history p ++ d ->
  kernel_tables (probe p') = kernel_tables (probe p) ->
  inserted_keys d = [] ->
  pointers_grow p p' d.
Proof.
  intros Hh Hk Hi. unfold pointers_grow, no_dangling, pid_cookie, proc_cache,
    table_data. rewrite Hk, Hi. cbn.
  repeat split; try done; [constructor | set_solver | set_solver].
Qed.

Lemma snapshotProcess_pointers pid p :
  started p = true ->
  let o := snapshotProcess X pid p in
  exists delta,
    history (final o) = history p ++ delta /\
    started (final o) = true /\
    (forall c, is_Some (proc_cache p !! c) -> is_Some (proc_cache (final o) !! c)) /\
    ((inserted_keys delta = [] /\ pid_cookie (final o) = pid_cookie p) \/
     (inserted_keys delta = [pid_key pid] /\
      pid_cookie p !! pid_key pid = None /\
      exists c, pid_cookie (final o) = <[pid_key pid := c]> (pid_cookie p) /\
                is_Some (proc_cache (final o) !! c))).
Proof.
  intros Hs o. subst o. pose proof Hs as Hs'. use_started Hs'.
  assert (Hsame : forall q, kernel_tables (probe q) = kernel_tables (probe p) ->
    (forall c, is_Some (tbl_data tc !! c) -> is_Some (proc_cache q !! c)) /\
    pid_cookie q = tbl_data tk).
  { intros q Hq. unfold proc_cache, pid_cookie, table_data.
    by rewrite Hq, Htc, Htk. }
  wp_intro (snapshotProcess X pid) p.
  unfold snapshotProcess. fold (pid_key pid).
  wp_run.
  all: eexists; split; [solve_history|].
  all: split; [solve_started Hs|].
  all: cbn [app inserted_keys flat_map String.eqb Ascii.eqb Bool.eqb].
  all: try (destruct (Hsame _ eq_refl) as [Hg Hp]; split; [exact Hg|];
            left; split; [reflexivity | exact Hp]).
  all: pose proof (tbl_set_Some _ _ _ _ Heqo5) as Hc.
  all: try pose proof (tbl_set_Some _ _ _ _ Heqo6) as Hk.
  all: match goal with
       | |- context [EvTableSetP "proc_cache" ?c ?v _] =>
           set (cookieb := c) in *; set (entryb := v) in *
       end.
  all: assert (Hgrow : forall q t,
         kernel_tables (probe q) !! "proc_cache"%string = Some t ->
         tbl_data t = <[cookieb := entryb]> (tbl_data tc) ->
         forall c, is_Some (tbl_data tc !! c) -> is_Some (proc_cache q !! c)).
  1,3: (intros q tq Hq Ht c [x Hx]; unfold proc_cache, table_data;
            rewrite Hq, Ht;
            destruct (decide (c = cookieb)) as [->|];
            [rewrite lookup_insert_eq | rewrite lookup_insert_ne by done];
            eauto).
  - split.
    + apply (Hgrow _ t0); [|done]. wp_simpl.
      by rewrite lookup_insert_ne, lookup_insert_eq.
    + right. split; [reflexivity|]. split; [done|]. exists cookieb.
      unfold pid_cookie, proc_cache, table_data. wp_simpl.
      repeat (rewrite lookup_insert_eq || rewrite lookup_insert_ne by done).
      rewrite Hk, Hc. split; [done|]. rewrite lookup_insert_eq. eauto.
  - split.
    + apply (Hgrow _ t0); [|done]. wp_simpl. by rewrite lookup_insert_eq.
    + left. split; [reflexivity|].
      unfold pid_cookie, table_data. wp_simpl.
      rewrite lookup_insert_ne by done. by rewrite Htk.
Qed.

Lemma snapshotProcess_grows pid p :
  started p = true ->
  let o := snapshotProcess X pid p in
  exists delta, pointers_grow p (final o) delta /\ started (final o) = true.
Proof.
  intros Hs o.
  destruct (snapshotProcess_pointers pid p Hs) as (d & Hh & Hs' & Hg & Hcase).
  fold o in Hh, Hs', Hg, Hcase. exists d. split; [|done].
  assert (Hdom : dom (proc_cache p) ⊆ dom (proc_cache (final o))).
  { intros c Hc. apply elem_of_dom. apply Hg. by apply elem_of_dom. }
  unfold pointers_grow. split; [done|].
  destruct Hcase as [[Hi Hp]|(Hi & Hnone & c & Hp & Hc)]; rewrite Hi, Hp.
  - cbn. split; [constructor|]. split; [set_solver|]. split; [set_solver|].
    split; [done|]. split; [done|].
    apply no_dangling_step; [done|]. rewrite Hp. eauto.
  - split; [apply NoDup_singleton|]. split.
    { intros k Hk. apply list_elem_of_singleton in Hk as ->. done. }
    split; [rewrite dom_insert_L; set_solver|].
    split; [by apply insert_subseteq|]. split; [done|].
    apply no_dangling_step; [done|]. rewrite Hp. intros k c' Hk.
    destruct (decide (k = pid_key pid)) as [->|Hne].
    + rewrite lookup_insert_eq in Hk. injection Hk as <-. by right.
    + rewrite lookup_insert_ne in Hk by done. by left.
Qed.

Lemma insert_each_grows pids b p :
  started p = true ->
  let o := insert_each pids b p in
  exists delta, pointers_grow p (final o) delta /\ started (final o) = true.
Proof.
  revert b p. induction pids as [|pid rest IH]; intros b p Hs.
  - exists []. split; [apply pointers_grow_refl | done].
  - cbn [insert_each]. unfold mbind, M_bind.
    destruct (snapshotProcess_grows pid p Hs) as (d1 & G1 & S1).
    destruct (snapshotProcess X pid p) as [r p1|p1]; cbn [final] in *.
    + destruct (IH (if r then true else b) p1 S1) as (d2 & G2 & S2).
      exists (d1 ++ d2). split; [by eapply pointers_grow_trans | done].
    + by exists d1.
Qed.

Lemma snapshot_grows p :
  started p = true ->
  let o := snapshot X p in
  exists delta, pointers_grow p (final o) delta /\ started (final o) = true.
Proof.
  intros Hs. cbv zeta. rewrite snapshot_unfold.
  set (p0 := record_event EvAllProcesses _).
  assert (G0 : pointers_grow p p0 [EvAllProcesses])
    by (by apply pointers_grow_frame).
  assert (S0 : started p0 = true) by (subst p0; solve_started Hs).
  destruct (process_AllProcesses X (resolvers p)).1 as [err|processes].
  - by exists [EvAllProcesses].
  - destruct (insert_each_grows (live_pids processes) false p0 S0) as (d & G & S).
    exists ([EvAllProcesses] ++ d).
    destruct (insert_each _ _ _) as [r p1|p1]; cbn [final] in *;
      (split; [by eapply pointers_grow_trans | done]).
Qed.

Lemma Snapshot_retry_grows n p :
  started p = true ->
  let o := Snapshot_retry X n p in
  exists delta, pointers_grow p (final o) delta /\ started (final o) = true.
Proof.
  revert p. induction n as [|n IH]; intros p Hs.
  - exists []. split; [apply pointers_grow_refl | done].
  - cbn [Snapshot_retry]. unfold mbind, M_bind.
    destruct (snapshot_grows p Hs) as (d1 & G1 & S1).
    destruct (snapshot X p) as [[e|] p1|p1]; cbn [final] in *.
    + destruct (IH p1 S1) as (d2 & G2 & S2).
      exists (d1 ++ d2). split; [by eapply pointers_grow_trans | done].
    + by exists d1.
    + by exists d1.
Qed.

Lemma Probe_RegisterTable_tables pr name :
  kernel_tables (Probe_RegisterTable pr name).2 = kernel_tables pr.
Proof. unfold Probe_RegisterTable. by case_match. Qed.

Lemma started_same_tables p q :
  kernel_tables (probe q) = kernel_tables (probe p) ->
  procCacheMap q = procCacheMap p -> pidCookieMap q = pidCookieMap p ->
  started q = started p.
Proof. intros H1 H2 H3. unfold started, bound. by rewrite H1, H2, H3. Qed.

Lemma Snapshot_grows p :
  started p = true ->
  exists delta, pointers_grow p (final (Snapshot X p)) delta.
Proof.
  intros Hs. rewrite Snapshot_cases.
  set (p1 := record_event (EvRegisterTable "inode_numlower") _).
  assert (K1 : kernel_tables (probe p1) = kernel_tables (probe p))
    by apply Probe_RegisterTable_tables.
  assert (G1 : pointers_grow p p1 [EvRegisterTable "inode_numlower"])
    by (by apply pointers_grow_frame).
  destruct (Probe_RegisterTable _ _).1; [by eexists|].
  set (p2 := set_inodeNumlowerMap _ p1).
  assert (G2 : pointers_grow p p2 [EvRegisterTable "inode_numlower"])
    by (by apply pointers_grow_frame).
  destruct (Probe_Table _ _); [|by eexists].
  set (p3 := record_event (EvRegisterKprobe "getattr" _) _).
  assert (G3 : pointers_grow p2 p3
                 [EvRegisterKprobe "getattr"
                    (match (Module_RegisterKprobe X
                              {| Name := "getattr"; EntryFunc := "kprobe/vfs_getattr" |}
                              (resolvers p2)).1
                     with None => true | Some _ => false end)]).
  { apply pointers_grow_frame; [done|done|]. by destruct (_.1). }
  pose proof (pointers_grow_trans _ _ _ _ _ G2 G3) as G23.
  destruct (Module_RegisterKprobe _ _ _).1 eqn:Hk; [by eexists|].
  assert (S3 : started p3 = true).
  { rewrite <- Hs. by apply started_same_tables. }
  destruct (defer_unregister (Snapshot_retry X 5) p3) as [_ Hfin].
  destruct (Snapshot_retry_grows 5 p3 S3) as (d & G & _).
  rewrite Hfin.
  set (p4 := final (Snapshot_retry X 5 p3)) in *.
  eexists. eapply pointers_grow_trans; [eapply pointers_grow_trans; [exact G23|exact G]|].
  eapply (pointers_grow_frame _ _ [EvUnregisterKprobe "getattr" _]); done.
Qed.

(** X10. The table chain only grows during Snapshot, in any outcome.  The
    pointers the kernel accepted are for distinct keys that had no pointer
    before (no pid is inserted twice), they are exactly the keys
    [pid_cookie] gained, no earlier pointer was changed or removed,
    [proc_cache] lost no key, and if no cookie was dangling before none is
    after. *)
Theorem Snapshot_inserts_each_pid_once p :
  started p = true ->
  let p' := final (Snapshot X p) in
  let keys := inserted_keys (events_since p p') in
  NoDup keys /\
  (forall k, k ∈ keys -> pid_cookie p !! k = None) /\
  dom (pid_cookie p') = dom (pid_cookie p) ∪ list_to_set keys /\
  pid_cookie p ⊆ pid_cookie p' /\
  dom (proc_cache p) ⊆ dom (proc_cache p') /\
  (no_dangling p = true -> no_dangling p' = true).
Proof.
  intros Hs p' keys. subst keys p'.
  destruct (Snapshot_grows p Hs) as (d & Hh & H).
  by rewrite (events_since_app _ _ _ Hh).
Qed.


(** X11. Setup failures of Snapshot.  When the module has no
    [inode_numlower] table the registration fails and Snapshot returns an
    error at once.  When the kprobe cannot be registered, Snapshot returns
    that error wrapped as "couldn't register kprobe getattr", with the
    snapshot table bound.  In both cases no pass runs, no kprobe is
    unregistered, and the kernel tables, the userspace cache and the two
    permanent handles are as before. *)
Theorem Snapshot_setup_failure p :
  let kp := {| Name := "getattr"; EntryFunc := "kprobe/vfs_getattr" |} in
  let k := Module_RegisterKprobe X kp (resolvers p) in
  let o := Snapshot X p in
  (kernel_tables (probe p) !! "inode_numlower"%string = None \/
   is_Some k.1 ->
   (exists e, returned o = Some (Some e)) /\
   attempts (events_since p (final o)) = 0%nat /\
   unregistrations (events_since p (final o)) = 0%nat /\
   table_writes (events_since p (final o)) = [] /\
   kernel_tables (probe (final o)) = kernel_tables (probe p) /\
   entryCache (final o) = entryCache p /\
   procCacheMap (final o) = procCacheMap p /\
   pidCookieMap (final o) = pidCookieMap p) /\
  (kernel_tables (probe p) !! "inode_numlower"%string = None ->
   events_since p (final o) = [EvRegisterTable "inode_numlower"] /\
   inodeNumlowerMap (final o) = inodeNumlowerMap p /\
   resolvers (final o) = resolvers p) /\
  (forall e,
     is_Some (kernel_tables (probe p) !! "inode_numlower"%string) ->
     k.1 = Some e ->
     returned o = Some (Some (errors_Wrapf e "couldn't register kprobe getattr")) /\
     events_since p (final o) = [EvRegisterTable "inode_numlower";
                                 EvRegisterKprobe "getattr" false] /\
     inodeNumlowerMap (final o) = Some "inode_numlower"%string /\
     resolvers (final o) = k.2).
Proof.
  intros kp k o. subst o k. rewrite Snapshot_cases.
  unfold Probe_RegisterTable, Probe_Table.
  destruct (kernel_tables (probe p) !! "inode_numlower"%string) as [tn|] eqn:Htn;
    cbn [fst snd]; wp_simpl; cbn [tablesMap].
  - destruct (decide _) as [_|Hnot]; [|exfalso; apply Hnot; set_solver].
    wp_simpl. fold kp.
    destruct (Module_RegisterKprobe X kp (resolvers p)).1 as [e|] eqn:Hk.
    + cbn [final returned]. wp_simpl.
      erewrite events_since_app by solve_history. cbn [app].
      split; [|split].
      * intros _. split; [by eexists|]. done.
      * done.
      * intros e' _ [= <-]. done.
    + split; [|split].
      * intros [|[? ?]]; done.
      * done.
      * intros e' _ ?. done.
  - cbn [final returned]. wp_simpl.
    erewrite events_since_app by solve_history.
    split; [|split].
    + intros _. split; [by eexists|]. done.
    + done.
    + intros e' [? ?]. done.
Qed.

End Properties.

(** ** The theorems on the simulated host *)

Import Scenario.

(** Pid 10 is inserted: the entry goes in under cookie 7000, then the
    pointer, and the chain stays free of dangling cookies. *)
Lemma snapshotProcess_entry_before_pointer_witness :
  started (snapshotting []) = true /\
  no_dangling (snapshotting []) = true /\
  returned (snapshotProcess E 10 (snapshotting [])) = Some true /\
  no_dangling (final (snapshotProcess E 10 (snapshotting []))) = true.
Proof.
  assert (Hs : started (snapshotting []) = true) by (vm_compute; reflexivity).
  destruct (snapshotProcess_entry_before_pointer E 10 (snapshotting []) Hs)
    as (delta & _ & _ & Hnd).
  split; [exact Hs|]. split; [vm_compute; reflexivity|].
  split; [vm_compute; reflexivity|].
  apply Hnd. vm_compute. reflexivity.
Defined.

(** Pid 10 is already registered: two more calls read [pid_cookie] and do
    nothing else. *)
Lemma snapshotProcess_idempotent_witness :
  started inserted10 = true /\
  is_Some (pid_cookie inserted10 !! pid_key E 10) /\
  let p1 := record_event (EvTableGet "pid_cookie" (pid_key E 10)) inserted10 in
  let p2 := record_event (EvTableGet "pid_cookie" (pid_key E 10)) p1 in
  snapshotProcess E 10 inserted10 = Ok false p1 /\
  snapshotProcess E 10 p1 = Ok false p2 /\
  probe p2 = probe inserted10 /\ entryCache p2 = entryCache inserted10 /\
  resolvers p2 = resolvers inserted10 /\
  events_since inserted10 p2 = [EvTableGet "pid_cookie" (pid_key E 10);
                                EvTableGet "pid_cookie" (pid_key E 10)].
Proof.
  split; [vm_compute; reflexivity|].
  split; [vm_compute; eexists; reflexivity|].
  apply (snapshotProcess_idempotent E 10 inserted10).
  - vm_compute. reflexivity.
  - vm_compute. eexists. reflexivity.
Defined.

(** Pid 12: the exe link reads "/bin/c", the stat fails, the call returns
    false, and the provisional entry is in the cache. *)
Lemma snapshotProcess_provisional_entry_witness :
  let p := snapshotting [] in
  let s := MountResolver_SyncCache E 12 (resolvers p) in
  let c := ContainerResolver_GetContainerID E 12 s.2 in
  let l := os_Readlink E (utils_ProcExePath E 12) c.2 in
  let st := os_Stat E (utils_ProcExePath E 12) l.2 in
  (started p = true /\ pid_cookie p !! pid_key E 12 = None /\
   sync_aborts s.1 = false /\ is_failed c.1 = false /\
   l.1 = Value "/bin/c"%string /\ is_failed st.1 = true) /\
  returned (snapshotProcess E 12 p) = Some false /\
  entryCache (final (snapshotProcess E 12 p)) !! 12
  = Some (provisional E "/bin/c").
Proof.
  intros p s c l st.
  assert (H1 : started p = true) by (vm_compute; reflexivity).
  assert (H2 : pid_cookie p !! pid_key E 12 = None) by (vm_compute; reflexivity).
  assert (H3 : sync_aborts s.1 = false) by (vm_compute; reflexivity).
  assert (H4 : is_failed c.1 = false) by (vm_compute; reflexivity).
  assert (H5 : l.1 = Value "/bin/c"%string) by (vm_compute; reflexivity).
  assert (H6 : is_failed st.1 = true) by (vm_compute; reflexivity).
  destruct (snapshotProcess_provisional_entry E 12 p "/bin/c" H1 H2 H3 H4 H5)
    as (_ & Hin & Hret).
  split; [done|]. split; [exact (Hret H6) | exact Hin].
Defined.

(** Pid 14: the mount resolver says "no such process" and the insertion
    goes through all the same.  Pid 13: it says "permission denied" and the
    insertion stops there, without a table write; the pass goes on. *)
Lemma snapshotProcess_mount_sync_witness :
  let p := snapshotting [] in
  (started p = true /\
   pid_cookie p !! pid_key E 14 = None /\
   (MountResolver_SyncCache E 14 (resolvers p)).1 = Some ENOENT /\
   os_IsNotExist ENOENT = true /\
   snapshotProcess E 14 p = snapshotProcess (sync_succeeds E) 14 p /\
   returned (snapshotProcess E 14 p) = Some true) /\
  (pid_cookie p !! pid_key E 13 = None /\
   (MountResolver_SyncCache E 13 (resolvers p)).1 = Some EACCES /\
   os_IsNotExist EACCES = false /\
   returned (snapshotProcess E 13 p) = Some false /\
   table_writes (events_since p (final (snapshotProcess E 13 p))) = [] /\
   snapshot_range E [ {| Pid := 13; Exe := "/bin/x" |}; {| Pid := 10; Exe := "/bin/a" |} ]
     false p
   = snapshot_range E [ {| Pid := 10; Exe := "/bin/a" |} ] false
       (final (snapshotProcess E 13 p))).
Proof.
  intros p.
  assert (Hs : started p = true) by (vm_compute; reflexivity).
  assert (H14 : pid_cookie p !! pid_key E 14 = None) by (vm_compute; reflexivity).
  assert (H13 : pid_cookie p !! pid_key E 13 = None) by (vm_compute; reflexivity).
  assert (S14 : (MountResolver_SyncCache E 14 (resolvers p)).1 = Some ENOENT)
    by (vm_compute; reflexivity).
  assert (S13 : (MountResolver_SyncCache E 13 (resolvers p)).1 = Some EACCES)
    by (vm_compute; reflexivity).
  destruct (snapshotProcess_mount_sync E 14 p ENOENT Hs H14 S14) as [Htol _].
  destruct (snapshotProcess_mount_sync E 13 p EACCES Hs H13 S13) as [_ Habort].
  specialize (Htol eq_refl). specialize (Habort eq_refl).
  cbv zeta in Habort. destruct Habort as (Hrun & _ & _ & Hw & Hnext).
  split.
  - split; [exact Hs|]. split; [exact H14|]. split; [exact S14|].
    split; [reflexivity|]. split; [exact Htol|]. vm_compute. reflexivity.
  - split; [exact H13|]. split; [exact S13|]. split; [reflexivity|].
    rewrite Hrun. split; [reflexivity|]. split; [exact Hw|].
    apply Hnext; [vm_compute; reflexivity | discriminate].
Defined.

(** The four early exits: pid 10 is already registered, the mount sync of
    13 fails, 15 has no container record, 16 has no exe link.  The cache is
    untouched each time. *)
Lemma snapshotProcess_early_exit_keeps_cache_witness :
  let p := snapshotting [] in
  (started inserted10 = true /\
   is_Some (pid_cookie inserted10 !! pid_key E 10) /\
   returned (snapshotProcess E 10 inserted10) = Some false /\
   entryCache (final (snapshotProcess E 10 inserted10)) = entryCache inserted10) /\
  (started p = true /\
   sync_aborts (MountResolver_SyncCache E 13 (resolvers p)).1 = true /\
   returned (snapshotProcess E 13 p) = Some false /\
   entryCache (final (snapshotProcess E 13 p)) = entryCache p) /\
  (is_failed (ContainerResolver_GetContainerID E 15
                (MountResolver_SyncCache E 15 (resolvers p)).2).1 = true /\
   returned (snapshotProcess E 15 p) = Some false /\
   entryCache (final (snapshotProcess E 15 p)) = entryCache p) /\
  (is_failed (os_Readlink E (utils_ProcExePath E 16)
                (ContainerResolver_GetContainerID E 16
                   (MountResolver_SyncCache E 16 (resolvers p)).2).2).1 = true /\
   returned (snapshotProcess E 16 p) = Some false /\
   entryCache (final (snapshotProcess E 16 p)) = entryCache p).
Proof.
  intros p.
  assert (Hs : started p = true) by (vm_compute; reflexivity).
  assert (Hs' : started inserted10 = true) by (vm_compute; reflexivity).
  assert (H10 : is_Some (pid_cookie inserted10 !! pid_key E 10))
    by (vm_compute; eexists; reflexivity).
  assert (H13 : sync_aborts (MountResolver_SyncCache E 13 (resolvers p)).1 = true)
    by (vm_compute; reflexivity).
  assert (H15 : is_failed (ContainerResolver_GetContainerID E 15
                  (MountResolver_SyncCache E 15 (resolvers p)).2).1 = true)
    by (vm_compute; reflexivity).
  assert (H16 : is_failed (os_Readlink E (utils_ProcExePath E 16)
                  (ContainerResolver_GetContainerID E 16
                     (MountResolver_SyncCache E 16 (resolvers p)).2).2).1 = true)
    by (vm_compute; reflexivity).
  destruct (snapshotProcess_early_exit_keeps_cache E 10 inserted10 Hs') as [T10 _].
  destruct (snapshotProcess_early_exit_keeps_cache E 13 p Hs) as [T13 _].
  destruct (snapshotProcess_early_exit_keeps_cache E 15 p Hs) as [T15 _].
  destruct (snapshotProcess_early_exit_keeps_cache E 16 p Hs) as [T16 _].
  split; [|split; [|split]].
  - split; [done|]. split; [done|]. apply T10. by left.
  - split; [done|]. split; [done|]. apply T13. right. by left.
  - split; [done|]. apply T15. right. right. by left.
  - split; [done|]. apply T16. right. right. by right.
Defined.

(** Pid 10 is in the kernel tables only: the first Resolve reads both
    tables and resolves path and timestamp, the second is answered from the
    cache. *)
Lemma Resolve_cache_then_fallback_witness :
  let entry := {| PathnameStr := "/bin/a"; Timestamp := 1600000000 |} in
  (started cold10 = true /\ entryCache cold10 !! 10 = None /\
   exists p',
     Resolve E 10 cold10 = Ok (Some entry) p' /\
     events_since cold10 p' = [EvTableGet "pid_cookie" (pid_key E 10);
                               EvTableGet "proc_cache" (PutUint32 LittleEndian 7000);
                               EvResolveInode; EvResolveMonotonicTimestamp] /\
     Resolve E 10 p' = Ok (Some entry) p') /\
  (entryCache warm10 !! 10 = Some (Some entry) /\
   Resolve E 10 warm10 = Ok (Some entry) warm10).
Proof.
  intros entry.
  destruct (Resolve_cache_then_fallback E 10 cold10) as [_ Hmiss].
  destruct (Resolve_cache_then_fallback E 10 warm10) as [Hhit _].
  assert (Hs : started cold10 = true) by (vm_compute; reflexivity).
  assert (Hc : entryCache cold10 !! 10 = None) by (vm_compute; reflexivity).
  assert (Hw : entryCache warm10 !! 10 = Some (Some entry))
    by (vm_compute; reflexivity).
  split.
  - split; [done|]. split; [done|].
    edestruct Hmiss as (p' & H1 & H2 & _ & _ & H3).
    + exact Hs.
    + exact Hc.
    + vm_compute. reflexivity.
    + vm_compute. reflexivity.
    + vm_compute. reflexivity.
    + vm_compute. discriminate.
    + exists p'. split; [exact H1|]. split; [exact H2 | exact H3].
  - split; [done|]. by apply Hhit.
Defined.

(** The four ways the fallback fails, on stale tables: pid 99 has no
    pointer, the cookie of 21 has no entry, the entry of 22 does not decode,
    the path of 23 is not found.  Nothing is cached. *)
Lemma Resolve_miss_not_cached_witness :
  started stale = true /\
  (entryCache stale !! 99 = None /\
   pid_cookie stale !! pid_key E 99 = None /\
   returned (Resolve E 99 stale) = Some None /\
   entryCache (final (Resolve E 99 stale)) = entryCache stale) /\
  (entryCache stale !! 21 = None /\
   pid_cookie stale !! pid_key E 21 = Some (PutUint32 LittleEndian 1) /\
   proc_cache stale !! PutUint32 LittleEndian 1 = None /\
   returned (Resolve E 21 stale) = Some None /\
   entryCache (final (Resolve E 21 stale)) = entryCache stale) /\
  (entryCache stale !! 22 = None /\
   pid_cookie stale !! pid_key E 22 = Some (PutUint32 LittleEndian 2) /\
   proc_cache stale !! PutUint32 LittleEndian 2 = Some [x00] /\
   is_failed (ProcCacheEntry_UnmarshalBinary E [x00]) = true /\
   returned (Resolve E 22 stale) = Some None /\
   entryCache (final (Resolve E 22 stale)) = entryCache stale) /\
  (entryCache stale !! 23 = None /\
   (exists entryb procCacheEntry,
      pid_cookie stale !! pid_key E 23 = Some (PutUint32 LittleEndian 3) /\
      proc_cache stale !! PutUint32 LittleEndian 3 = Some entryb /\
      ProcCacheEntry_UnmarshalBinary E entryb = Value procCacheEntry /\
      (FileEvent_ResolveInode E (FileEvent_ procCacheEntry) (resolvers stale)).1
      = dentryPathKeyNotFound E) /\
   returned (Resolve E 23 stale) = Some None /\
   entryCache (final (Resolve E 23 stale)) = entryCache stale).
Proof.
  assert (Hs : started stale = true) by (vm_compute; reflexivity).
  assert (M99 : entryCache stale !! 99 = None) by (vm_compute; reflexivity).
  assert (M21 : entryCache stale !! 21 = None) by (vm_compute; reflexivity).
  assert (M22 : entryCache stale !! 22 = None) by (vm_compute; reflexivity).
  assert (M23 : entryCache stale !! 23 = None) by (vm_compute; reflexivity).
  destruct (Resolve_miss_not_cached E 99 stale Hs M99) as (T99 & _).
  destruct (Resolve_miss_not_cached E 21 stale Hs M21) as (_ & T21 & _).
  destruct (Resolve_miss_not_cached E 22 stale Hs M22) as (_ & _ & T22 & _).
  destruct (Resolve_miss_not_cached E 23 stale Hs M23) as (_ & _ & _ & T23 & _).
  assert (K99 : pid_cookie stale !! pid_key E 99 = None)
    by (vm_compute; reflexivity).
  assert (K21 : pid_cookie stale !! pid_key E 21 = Some (PutUint32 LittleEndian 1))
    by (vm_compute; reflexivity).
  assert (C21 : proc_cache stale !! PutUint32 LittleEndian 1 = None)
    by (vm_compute; reflexivity).
  assert (K22 : pid_cookie stale !! pid_key E 22 = Some (PutUint32 LittleEndian 2))
    by (vm_compute; reflexivity).
  assert (C22 : proc_cache stale !! PutUint32 LittleEndian 2 = Some [x00])
    by (vm_compute; reflexivity).
  assert (D22 : is_failed (ProcCacheEntry_UnmarshalBinary E [x00]) = true)
    by (vm_compute; reflexivity).
  assert (K23 : pid_cookie stale !! pid_key E 23 = Some (PutUint32 LittleEndian 3))
    by (vm_compute; reflexivity).
  split; [exact Hs|]. split; [|split; [|split]].
  - split; [exact M99|]. split; [exact K99|]. exact (T99 K99).
  - split; [exact M21|]. split; [exact K21|]. split; [exact C21|].
    exact (T21 _ K21 C21).
  - split; [exact M22|]. split; [exact K22|]. split; [exact C22|].
    split; [exact D22|]. exact (T22 _ _ K22 C22 D22).
  - split; [exact M23|].
    assert (H : exists entryb procCacheEntry,
      pid_cookie stale !! pid_key E 23 = Some (PutUint32 LittleEndian 3) /\
      proc_cache stale !! PutUint32 LittleEndian 3 = Some entryb /\
      ProcCacheEntry_UnmarshalBinary E entryb = Value procCacheEntry /\
      (FileEvent_ResolveInode E (FileEvent_ procCacheEntry) (resolvers stale)).1
      = dentryPathKeyNotFound E).
    { eexists _, _. split; [exact K23|].
      split; [vm_compute; reflexivity|].
      split; [vm_compute; reflexivity|]. vm_compute. reflexivity. }
    split; [exact H|].
    destruct H as (entryb & pce & H1 & H2 & H3 & H4).
    exact (T23 _ _ _ H1 H2 H3 H4).
Defined.

(** The exit of pid 10: its pointer is deleted, its entry stays in
    [proc_cache], and the fallback no longer finds it. *)
Lemma DelEntry_removes_pointer_only_witness :
  started inserted10 = true /\
  is_Some (pid_cookie inserted10 !! pid_key E 10) /\
  exists p',
    DelEntry E 10 inserted10 = Ok tt p' /\
    entryCache p' !! 10 = None /\
    pid_cookie p' !! pid_key E 10 = None /\
    proc_cache p' = proc_cache inserted10 /\
    returned (resolve E 10 p') = Some None /\
    returned (Resolve E 10 p') = Some None.
Proof.
  assert (Hs : started inserted10 = true) by (vm_compute; reflexivity).
  split; [exact Hs|]. split; [vm_compute; eexists; reflexivity|].
  destruct (DelEntry_removes_pointer_only E 10 inserted10 Hs)
    as (p' & H1 & _ & H2 & _ & _ & H3 & H4 & H5 & H6).
  exists p'. auto 10.
Defined.

(** A Snapshot that registers the kprobe calls UnregisterKprobe as its last
    call; the two passes in between make no kprobe call.  On this host the
    call succeeds, and the kprobe is not active afterwards. *)
Lemma Snapshot_unregisters_once_witness :
  let p := booted [Value all_live; Value all_live] true in
  let o := Snapshot E p in
  let delta := events_since p (final o) in
  existsb is_activation delta = true /\
  unregistrations delta = 1%nat /\
  (exists pre mid,
     delta = pre ++ EvRegisterKprobe "getattr" true
                 :: mid ++ [EvUnregisterKprobe "getattr" true] /\
     forallb (fun e => negb (is_kprobe_event e)) (pre ++ mid) = true) /\
  active_after "getattr" (history (final o)) true = false.
Proof.
  intros p o delta.
  assert (Ha : existsb is_activation delta = true) by (vm_compute; reflexivity).
  assert (Hd : existsb is_deactivation delta = true) by (vm_compute; reflexivity).
  destruct (Snapshot_unregisters_once E p) as (_ & Hu & Hshape & Hactive).
  fold o in Hu, Hshape, Hactive. fold delta in Hu, Hshape, Hactive.
  rewrite Ha in Hu. specialize (Hactive true). rewrite Ha, Hd in Hactive.
  destruct (Hshape Ha) as (pre & mid & w & Hdelta & Hno & _ & Hok).
  rewrite Hd in Hok. rewrite <- Hok in Hdelta.
  split; [exact Ha|]. split; [exact Hu|].
  split; [exists pre, mid; exact (conj Hdelta Hno)|]. exact Hactive.
Defined.

(** The kprobe cannot be detached: Snapshot registers it, settles in two
    passes and returns nil; its one call to UnregisterKprobe, the last call
    it makes, returns an error that is only logged.  The kprobe is still
    active when Snapshot has returned, and so it is when the next Snapshot
    begins: "never left active" does not hold of this run. *)
Lemma Snapshot_leaves_kprobe_active :
  let o := Snapshot E stuck in
  let delta := events_since stuck (final o) in
  started stuck = true /\
  returned o = Some None /\
  existsb is_activation delta = true /\
  unregistrations delta = 1%nat /\
  last delta = Some (EvUnregisterKprobe "getattr" false) /\
  active_after "getattr" (history (final o)) false = true /\
  ~ active_after "getattr" (history (final o)) false = false.
Proof.
  intros o delta.
  assert (Hactive : active_after "getattr" (history (final o)) false = true)
    by (vm_compute; reflexivity).
  split; [vm_compute; reflexivity|]. split; [vm_compute; reflexivity|].
  split; [vm_compute; reflexivity|]. split; [vm_compute; reflexivity|].
  split; [vm_compute; reflexivity|]. split; [exact Hactive|].
  rewrite Hactive. discriminate.
Qed.






(** ** Further examples on the simulated host *)

(** The overlay depth -1, in big-endian bytes, decodes to -1. *)
Lemma PutUint32_round_trip_witness :
  - 2 ^ 31 <= -1 < 2 ^ 31 /\
  int32 <$> Uint32 BigEndian (PutUint32 BigEndian (-1)) = Some (-1).
Proof.
  assert (H : - 2 ^ 31 <= -1 < 2 ^ 31) by lia.
  split; [exact H|].
  exact (proj2 (proj2 (proj2 (PutUint32_round_trip BigEndian (-1)))) H).
Defined.

(** Pid 10 is in the kernel tables; after AddEntry with a nil pointer,
    Resolve returns nil and reads no table.  Pid 11 is not concerned. *)
Lemma AddEntry_then_Resolve_witness :
  let p1 := set_entryCache (fun c => <[10 := None]> c) cold10 in
  is_Some (pid_cookie cold10 !! pid_key E 10) /\
  (11 <> 10) /\
  Resolve E 10 p1 = Ok None p1 /\
  entryCache p1 !! 11 = entryCache cold10 !! 11.
Proof.
  intros p1.
  destruct (AddEntry_then_Resolve E 10 None cold10) as (_ & Hres & _ & _ & _ & Hoth & _).
  assert (Hne : 11 <> 10) by lia.
  split; [vm_compute; eexists; reflexivity|].
  split; [exact Hne|]. split; [exact Hres | exact (Hoth 11 Hne)].
Defined.

(** A Resolve of pid 10 through the fallback leaves pid 11 alone; a second
    one, on the warm cache, changes nothing. *)
Lemma Resolve_reads_only_witness :
  (11 <> 10) /\
  entryCache (final (Resolve E 10 cold10)) !! 11 = entryCache cold10 !! 11 /\
  probe (final (Resolve E 10 cold10)) = probe cold10 /\
  is_Some (entryCache warm10 !! 10) /\
  final (Resolve E 10 warm10) = warm10.
Proof.
  destruct (Resolve_reads_only E 10 cold10) as (Hp & _ & _ & _ & _ & Hoth & _).
  destruct (Resolve_reads_only E 10 warm10) as (_ & _ & _ & _ & _ & _ & Hhit).
  assert (Hne : 11 <> 10) by lia.
  assert (Hw : is_Some (entryCache warm10 !! 10))
    by (vm_compute; eexists; reflexivity).
  split; [exact Hne|]. split; [exact (Hoth 11 Hne)|].
  split; [exact Hp|]. split; [exact Hw | exact (Hhit Hw)].
Defined.

(** Pids 10 and 11 are registered; the exit of 10 leaves the pointer and
    the cache entry of 11. *)
Lemma DelEntry_keeps_other_pids_witness :
  started inserted_both = true /\
  uint32 11 <> uint32 10 /\
  is_Some (pid_cookie inserted_both !! pid_key E 11) /\
  pid_cookie (final (DelEntry E 10 inserted_both)) !! pid_key E 11
  = pid_cookie inserted_both !! pid_key E 11 /\
  entryCache (final (DelEntry E 10 inserted_both)) !! 11
  = entryCache inserted_both !! 11.
Proof.
  assert (Hs : started inserted_both = true) by (vm_compute; reflexivity).
  assert (Hne : uint32 11 <> uint32 10) by (vm_compute; discriminate).
  destruct (DelEntry_keeps_other_pids E 10 11 inserted_both Hs Hne) as (H1 & H2 & _).
  split; [exact Hs|]. split; [exact Hne|].
  split; [vm_compute; eexists; reflexivity|].
  split; [exact H1 | exact H2].
Defined.

(** The exit of pid 99, which nobody knows, changes nothing; the exit of
    pid 10 twice is the same as once. *)
Lemma DelEntry_idempotent_witness :
  started inserted10 = true /\
  entryCache inserted10 !! 99 = None /\
  pid_cookie inserted10 !! pid_key E 99 = None /\
  returned (DelEntry E 99 inserted10) = Some tt /\
  probe (final (DelEntry E 99 inserted10)) = probe inserted10 /\
  entryCache (final (DelEntry E 99 inserted10)) = entryCache inserted10 /\
  probe (final (DelEntry E 10 (final (DelEntry E 10 inserted10))))
  = probe (final (DelEntry E 10 inserted10)).
Proof.
  assert (Hs : started inserted10 = true) by (vm_compute; reflexivity).
  assert (Hc : entryCache inserted10 !! 99 = None) by (vm_compute; reflexivity).
  assert (Hk : pid_cookie inserted10 !! pid_key E 99 = None)
    by (vm_compute; reflexivity).
  destruct (DelEntry_idempotent E 99 inserted10 Hs) as (Hr & _ & _ & _ & _ & Hun).
  destruct (DelEntry_idempotent E 10 inserted10 Hs) as (_ & _ & _ & Htw & _ & _).
  destruct (Hun Hc Hk) as [Hp He].
  split; [exact Hs|]. split; [exact Hc|]. split; [exact Hk|].
  split; [exact Hr|]. split; [exact Hp|]. split; [exact He | exact Htw].
Defined.

(** Start on a fresh resolver over the loaded module binds both handles. *)
Lemma Start_binds_handles_witness :
  bool_decide ("proc_cache"%string ∈ tablesMap (probe fresh))
  && bool_decide ("pid_cookie"%string ∈ tablesMap (probe fresh)) = true /\
  tablesMap (probe fresh) ⊆ dom (kernel_tables (probe fresh)) /\
  returned (Start fresh) = Some None /\
  started (final (Start fresh)) = true.
Proof.
  destruct (Start_binds_handles fresh) as (Hret & _ & _ & _ & _ & _ & _ & _ & Hst).
  assert (Hb : bool_decide ("proc_cache"%string ∈ tablesMap (probe fresh))
               && bool_decide ("pid_cookie"%string ∈ tablesMap (probe fresh)) = true)
    by (vm_compute; reflexivity).
  assert (Hwf : tablesMap (probe fresh) ⊆ dom (kernel_tables (probe fresh))).
  { apply (bool_decide_unpack
             (tablesMap (probe fresh) ⊆ dom (kernel_tables (probe fresh)))).
    vm_compute. exact I. }
  split; [exact Hb|]. split; [exact Hwf|].
  split; [vm_compute; reflexivity | exact (Hst Hb Hwf)].
Defined.


(** The insertion of pid 12 fails at the stat; Resolve of 12 then answers
    "/bin/c" from the cache. *)
Lemma Resolve_after_snapshotProcess_witness :
  let p := snapshotting [] in
  let s := MountResolver_SyncCache E 12 (resolvers p) in
  let c := ContainerResolver_GetContainerID E 12 s.2 in
  let l := os_Readlink E (utils_ProcExePath E 12) c.2 in
  let p' := final (snapshotProcess E 12 p) in
  (started p = true /\ pid_cookie p !! pid_key E 12 = None /\
   sync_aborts s.1 = false /\ is_failed c.1 = false /\
   l.1 = Value "/bin/c"%string) /\
  returned (snapshotProcess E 12 p) = Some false /\
  Resolve E 12 p' = Ok (provisional E "/bin/c") p'.
Proof.
  intros p s c l p'.
  assert (H1 : started p = true) by (vm_compute; reflexivity).
  assert (H2 : pid_cookie p !! pid_key E 12 = None) by (vm_compute; reflexivity).
  assert (H3 : sync_aborts s.1 = false) by (vm_compute; reflexivity).
  assert (H4 : is_failed c.1 = false) by (vm_compute; reflexivity).
  assert (H5 : l.1 = Value "/bin/c"%string) by (vm_compute; reflexivity).
  split; [exact (conj H1 (conj H2 (conj H3 (conj H4 H5))))|].
  split; [vm_compute; reflexivity|].
  exact (Resolve_after_snapshotProcess E 12 p "/bin/c" H1 H2 H3 H4 H5).
Defined.

(** On the process set that keeps growing, Snapshot inserts five pids, each
    once, and [pid_cookie] ends with exactly those keys. *)
Lemma Snapshot_inserts_each_pid_once_witness :
  let p := booted growing_passes true in
  let p' := final (Snapshot E p) in
  let keys := inserted_keys (events_since p p') in
  started p = true /\ no_dangling p = true /\
  length keys = 5%nat /\ NoDup keys /\
  dom (pid_cookie p') = dom (pid_cookie p) ∪ list_to_set keys /\
  no_dangling p' = true.
Proof.
  intros p p' keys.
  assert (Hs : started p = true) by (vm_compute; reflexivity).
  assert (Hn : no_dangling p = true) by (vm_compute; reflexivity).
  destruct (Snapshot_inserts_each_pid_once E p Hs) as (Hnd & _ & Hdom & _ & _ & Hinv).
  split; [exact Hs|]. split; [exact Hn|].
  split; [vm_compute; reflexivity|]. split; [exact Hnd|].
  split; [exact Hdom | exact (Hinv Hn)].
Defined.

(** The kprobe cannot be registered: Snapshot returns the wrapped error
    without running a pass. *)
Lemma Snapshot_setup_failure_witness :
  let p := booted [Value all_live] false in
  let kp := {| Name := "getattr"; EntryFunc := "kprobe/vfs_getattr" |} in
  is_Some (kernel_tables (probe p) !! "inode_numlower"%string) /\
  (Module_RegisterKprobe E kp (resolvers p)).1 = Some EACCES /\
  returned (Snapshot E p)
  = Some (Some (errors_Wrapf EACCES "couldn't register kprobe getattr")) /\
  attempts (events_since p (final (Snapshot E p))) = 0%nat /\
  entryCache (final (Snapshot E p)) = entryCache p.
Proof.
  intros p kp.
  assert (Ht : is_Some (kernel_tables (probe p) !! "inode_numlower"%string)).
  { apply (bool_decide_unpack
             (is_Some (kernel_tables (probe p) !! "inode_numlower"%string))).
    vm_compute. exact I. }
  assert (Hk : (Module_RegisterKprobe E kp (resolvers p)).1 = Some EACCES)
    by (vm_compute; reflexivity).
  destruct (Snapshot_setup_failure E p) as (Hgen & _ & Hkp).
  destruct (Hkp EACCES Ht Hk) as (Hret & _).
  destruct Hgen as (_ & Hatt & _ & _ & _ & Hcache & _).
  { right. fold kp. rewrite Hk. by eexists. }
  split; [exact Ht|]. split; [exact Hk|]. split; [exact Hret|].
  split; [exact Hatt | exact Hcache].
Defined.
